(** * The TPS Client API example program ([c_example.c])

    A shallow embedding of the C example client, and the properties of
    it that the specification states.  The program discovers the
    "GPP ROT13" service, opens a session, sends one fixed CBOR request
    and prints the answer.

    Conventions.
    - [uint8_t] is [Byte.byte]; [uint32_t], [size_t] and [int] values are
      integers of [Z] kept inside their ranges ([int] is 32 bits, [size_t]
      64 bits, the LP64 layout of the platforms that ship [libc.h]).
    - A pointer is the identifier of a memory block; [msg[i]] reads cell
      [i] of the block.
    - The functions of [tpsc_client_api.h] are not part of the example;
      they are the fields of the class [TPSC_Client_API], and every
      statement about [main] holds for every instance of it. *)

From Stdlib Require Import ZArith List String Ascii Bool Lia.
From Stdlib Require Import Strings.Byte.
From stdpp Require Import base vector.
Import ListNotations.

#[local] Open Scope Z_scope.

(** ** Machine integers *)

Definition INT_MAX : Z := 2147483647.
Definition SIZE_MAX : Z := 18446744073709551615.

(** Conversion of an [int] to [size_t], as the comparison [i < len] of a
    signed counter with an unsigned length performs it. *)
Definition to_size_t (i : Z) : Z := i mod (SIZE_MAX + 1).

(** The macros [TRUE] and [FALSE] of the system headers that [libc.h]
    brings in: 1 and 0. *)
Definition TRUE : Z := 1.
Definition FALSE : Z := 0.

(** Modelled from the spec: [tpsc_client_api.h] is absent; section 6 says
    that 0, [SUCCESS], is the only status that is not an error. *)
Definition TPSC_SUCCESS : Z := 0.

(** Modelled from the spec: the constant comes from the absent header; its
    value plays no part in any statement below. *)
Definition TPSC_LOGIN_PUBLIC : Z := 0.

Definition TRANSACTION_BUFFER_SIZE : Z := 256.

(** ** UUIDs and the request and response messages *)

Record TPSC_UUID := { bytes : list byte }.

Definition SERVICE_ID_GPP_ROT13 : TPSC_UUID :=
  {| bytes := [x87; xba; xe7; x13; xb0; x8f; x5e; x28;
               xb9; xee; x4a; xa6; xe2; x02; x44; x0e] |}.

(** Modelled from the spec: the macro [TPSC_UUID_NIL] of the absent header
    is the all-zero UUID (section 9, "nil UUID" sentinel). *)
Definition TPSC_UUID_NIL : TPSC_UUID := {| bytes := repeat x00 16 |}.

Definition INPUT_MSG : list byte :=
  [xca;  (* tag(10) *)
   xa1;  (* map(1) *)
   x01;  (* unsigned 1 *)
   x70;  (* tstr(16) *)
   x54; x68; x69; x73; x67; x6f; x65; x73; x74;
   x6f; x65; x6c; x65; x76; x65; x6e].

Definition EXPECT_MSG : list byte :=
  [xca;  (* tag(10) *)
   xa1;  (* map(1) *)
   x01;  (* unsigned 1 *)
   x70;  (* tstr(16) *)
   x47; x75; x76; x66; x74; x62; x72; x66; x67;
   x62; x72; x79; x72; x69; x72; x61].

(** Modelled from the spec: the ROT13 transform that the "GPP ROT13"
    service applies is not in the example; this is the usual rotation of
    the 26 letters by 13 places, other bytes unchanged. *)
Definition rot13 (b : byte) : byte :=
  let n := Z.of_N (Byte.to_N b) in
  let r :=
    if (65 <=? n) && (n <=? 90) then 65 + (n - 65 + 13) mod 26
    else if (97 <=? n) && (n <=? 122) then 97 + (n - 97 + 13) mod 26
    else n in
  match Byte.of_N (Z.to_N r) with
  | Some b' => b'
  | None => b
  end.

(** Modelled from the spec: the head byte of a CBOR data item (RFC 8949)
    holds the major type in its three high bits and the argument in its
    five low bits; the comments of [INPUT_MSG] use the names of the major
    types. *)
Inductive cbor_major := Unsigned | Negative | Bstr | Tstr | Array | Map | Tag | Simple.

Definition cbor_head (b : byte) : cbor_major * Z :=
  let n := Z.of_N (Byte.to_N b) in
  (match Z.shiftr n 5 with
   | 0 => Unsigned | 1 => Negative | 2 => Bstr | 3 => Tstr
   | 4 => Array | 5 => Map | 6 => Tag | _ => Simple
   end,
   Z.land n 31).

Definition string_of_bytes (l : list byte) : string :=
  string_of_list_ascii (map ascii_of_byte l).

(** ** Service versions, bounds and selectors *)

Record TPSC_ServiceVersion := {
  major_version : Z;
  minor_version : Z;
  patch_version : Z
}.

(** The tagged union of one edge of a range: [.tag] with the member
    [.inclusive] or [.exclusive]. *)
Inductive TPSC_ServiceBound :=
  | Inclusive (inclusive : TPSC_ServiceVersion)
  | Exclusive (exclusive : TPSC_ServiceVersion).

Record TPSC_ServiceRange := {
  lowest_acceptable_version : TPSC_ServiceBound;
  first_excluded_version : TPSC_ServiceBound;
  last_excluded_version : TPSC_ServiceBound;
  highest_acceptable_version : TPSC_ServiceBound
}.

Record TPSC_ServiceSelector := {
  service_id : TPSC_UUID;
  secure_component_instance : TPSC_UUID;
  secure_component_type : TPSC_UUID;
  service_version_range : TPSC_ServiceRange
}.

(** Modelled from the spec: the type is declared in the absent header;
    section 3 gives it a service id and a service instance, and [main]
    reads the member [service_instance]. *)
Record TPSC_ServiceIdentifier := {
  service_instance : TPSC_UUID;
  identified_service : TPSC_UUID
}.

(** A zero-initialised object of static storage. *)
Definition zero_ServiceIdentifier : TPSC_ServiceIdentifier :=
  {| service_instance := TPSC_UUID_NIL; identified_service := TPSC_UUID_NIL |}.

(** The selector that [DoServiceDiscovery] builds. *)
Definition selector : TPSC_ServiceSelector :=
  {| service_id := SERVICE_ID_GPP_ROT13;
     secure_component_instance := TPSC_UUID_NIL;
     secure_component_type := TPSC_UUID_NIL;
     service_version_range :=
       {| lowest_acceptable_version :=
            Inclusive {| major_version := 0; minor_version := 0; patch_version := 1 |};
          first_excluded_version :=
            Inclusive {| major_version := 1; minor_version := 1; patch_version := 1 |};
          last_excluded_version :=
            Exclusive {| major_version := 1; minor_version := 2; patch_version := 0 |};
          highest_acceptable_version :=
            Exclusive {| major_version := 2; minor_version := 0; patch_version := 0 |} |} |}.

Module VersionRange.

(** Modelled from the spec: version matching is done by the client
    library, which is absent.  Section 4.1: the order is lexicographic on
    (major, minor, patch); an inclusive bound includes its triple and an
    exclusive bound excludes it; a version is accepted iff it is inside
    the acceptable window and not inside the excluded window. *)
Definition version_compare (a b : TPSC_ServiceVersion) : comparison :=
  match major_version a ?= major_version b with
  | Eq =>
      match minor_version a ?= minor_version b with
      | Eq => patch_version a ?= patch_version b
      | c => c
      end
  | c => c
  end.

Definition version_ltb (a b : TPSC_ServiceVersion) : bool :=
  match version_compare a b with Lt => true | _ => false end.

Definition version_leb (a b : TPSC_ServiceVersion) : bool :=
  match version_compare a b with Gt => false | _ => true end.

(** Modelled from the spec: [v] is on the upper side of a lower edge. *)
Definition above (lo : TPSC_ServiceBound) (v : TPSC_ServiceVersion) : bool :=
  match lo with
  | Inclusive b => version_leb b v
  | Exclusive b => version_ltb b v
  end.

(** Modelled from the spec: [v] is on the lower side of an upper edge. *)
Definition below (hi : TPSC_ServiceBound) (v : TPSC_ServiceVersion) : bool :=
  match hi with
  | Inclusive b => version_leb v b
  | Exclusive b => version_ltb v b
  end.

(** Modelled from the spec: membership of the window between two edges. *)
Definition within (lo hi : TPSC_ServiceBound) (v : TPSC_ServiceVersion) : bool :=
  above lo v && below hi v.

(** Modelled from the spec: the operation [accepts] of section 4.1. *)
Definition accepts (r : TPSC_ServiceRange) (v : TPSC_ServiceVersion) : bool :=
  within (lowest_acceptable_version r) (highest_acceptable_version r) v
  && negb (within (first_excluded_version r) (last_excluded_version r) v).

Definition version (major minor patch : Z) : TPSC_ServiceVersion :=
  {| major_version := major; minor_version := minor; patch_version := patch |}.

End VersionRange.

(** ** Memory and transaction buffers *)

Definition ptr := N.
Definition NULL : ptr := 0%N.

(** What a [uint8_t*] gives access to: the cell at each index.  No extent
    is recorded: a read past the end of the object, undefined in C, reads
    a cell here, so a statement about what is read through a pointer is
    made for indices inside the object only. *)
Definition cells := Z -> byte.

(** The memory: the cells of every block.  The sizes of the blocks are
    not recorded; the two blocks that [main] allocates have
    [TRANSACTION_BUFFER_SIZE] bytes each. *)
Definition Mem := ptr -> cells.

(** A local array seen through a pointer to its first element (reading
    past its end is undefined in C; here it reads [x00]). *)
Definition array (a : list byte) : cells :=
  fun i => nth (Z.to_nat i) a x00.

Definition load_bytes (c : cells) (n : nat) : list byte :=
  map (fun i => c (Z.of_nat i)) (seq 0 n).

(** [memcpy(dest, src, n)]: the first [n] cells of block [dest] receive
    the first [n] cells of [src]. *)
Definition memcpy_mem (dest : ptr) (src : cells) (n : Z) (m : Mem) : Mem :=
  fun p i => if (N.eqb p dest && (0 <=? i) && (i <? n))%bool then src i else m p i.

Module MessageBuffer.
(** Modelled from the spec: the struct is declared in the absent header;
    [main] uses its members [message] and [size], and section 3 gives a
    transaction buffer a fixed capacity as well. *)
Record TPSC_MessageBuffer := {
  message : ptr;
  size : Z;
  capacity : Z
}.

(** [buf.size = n;] *)
Definition set_size (buf : TPSC_MessageBuffer) (n : Z) : TPSC_MessageBuffer :=
  {| message := message buf; size := n; capacity := capacity buf |}.
End MessageBuffer.
Import MessageBuffer (TPSC_MessageBuffer).

(** ** The client library, as the example sees it

    Each function receives what the C call passes (by value or through a
    pointer) and returns its status with the new contents of what it was
    given a pointer to.  [World] is the state of the platform behind the
    library.  The array handed to [ServiceDiscovery] is the one of
    [DoServiceDiscovery], of three elements. *)
Class TPSC_Client_API := {
  World : Type;
  TPSC_Session : Type;
  ServiceDiscovery :
    TPSC_ServiceSelector -> Z -> vec TPSC_ServiceIdentifier 3 -> World ->
    (Z * Z * vec TPSC_ServiceIdentifier 3) * World;
  OpenSession :
    TPSC_UUID -> Z -> ptr -> World -> (Z * TPSC_Session) * World;
  InitializeTransaction :
    ptr -> Z -> World -> Mem -> (Z * TPSC_MessageBuffer) * World * Mem;
  ExecuteTransaction :
    TPSC_Session -> TPSC_MessageBuffer -> TPSC_MessageBuffer -> World -> Mem ->
    (Z * TPSC_Session * TPSC_MessageBuffer * TPSC_MessageBuffer) * World * Mem
}.

(** A call that the program makes, with the status it got back.  The call
    of [TPSC_ExecuteTransaction] also records the request buffer and the
    memory that the callee is given. *)
Inductive Call :=
  | CallServiceDiscovery (retval : Z)
  | CallOpenSession (retval : Z)
  | CallInitializeTransaction (buffer : ptr) (maxsize : Z) (retval : Z)
  | CallPrepareMessage (src_len : Z) (dest : ptr) (dest_len : Z) (retval : Z)
  | CallExecuteTransaction (send_buf : TPSC_MessageBuffer) (m : Mem) (retval : Z).

(** How a computation ends: with a value, in the undefined behaviour of C
    (overflow of a signed counter), or with the fuel of a loop used up. *)
Inductive outcome (A : Type) : Type :=
  | Done (a : A)
  | Undefined
  | OutOfFuel.
Arguments Done {A} a.
Arguments Undefined {A}.
Arguments OutOfFuel {A}.

Section Program.
Context {api : TPSC_Client_API}.

(** The state of a run: the platform, the memory, the next block that
    [malloc] hands out, the static array of [DoServiceDiscovery], what was
    written to the standard output (one string for each conversion or
    literal piece of a [printf]) and the calls made so far. *)
Record State := {
  world : World;
  mem : Mem;
  brk : ptr;
  services_available : vec TPSC_ServiceIdentifier 3;
  stdout : list string;
  calls : list Call
}.

Definition M (A : Type) : Type := State -> outcome A * State.

Definition ret {A} (a : A) : M A := fun st => (Done a, st).

Definition bind {A B} (m : M A) (k : A -> M B) : M B :=
  fun st =>
    match m st with
    | (Done a, st') => k a st'
    | (Undefined, st') => (Undefined, st')
    | (OutOfFuel, st') => (OutOfFuel, st')
    end.

Definition undefined {A} : M A := fun st => (Undefined, st).
Definition out_of_fuel {A} : M A := fun st => (OutOfFuel, st).

Definition gets {A} (f : State -> A) : M A := fun st => (Done (f st), st).

(** The state after [out] is written to the standard output. *)
Definition write (out : list string) (st : State) : State :=
  {| world := world st; mem := mem st; brk := brk st;
     services_available := services_available st;
     stdout := stdout st ++ out; calls := calls st |}.

Definition puts (s : string) : M unit :=
  fun st => (Done tt, write [s] st).

Definition log (c : Call) : M unit :=
  fun st =>
    (Done tt,
     {| world := world st; mem := mem st; brk := brk st;
        services_available := services_available st;
        stdout := stdout st; calls := calls st ++ [c] |}).

Definition set_mem (m : Mem) : M unit :=
  fun st =>
    (Done tt,
     {| world := world st; mem := m; brk := brk st;
        services_available := services_available st;
        stdout := stdout st; calls := calls st |}).

(** [malloc]: a block that is not in use, its cells holding whatever the
    memory holds there.  Exhaustion of the memory is left out: the block
    is always granted. *)
Definition malloc (n : Z) : M ptr :=
  fun st =>
    (Done (brk st),
     {| world := world st; mem := mem st; brk := N.succ (brk st);
        services_available := services_available st;
        stdout := stdout st; calls := calls st |}).

End Program.

Declare Scope prog_scope.
Delimit Scope prog_scope with prog.
Notation "x <- m ;; k" := (bind m (fun x => k))
  (at level 20, m at level 99, k at level 200) : prog_scope.
Notation "' pat <- m ;; k" := (bind m (fun x => match x with pat => k end))
  (at level 20, pat pattern, m at level 99, k at level 200) : prog_scope.
Notation "m ;; k" := (bind m (fun _ => k))
  (at level 100, k at level 200, right associativity) : prog_scope.

#[local] Open Scope string_scope.
#[local] Open Scope Z_scope.
#[local] Open Scope prog_scope.

(** ** Output conversions *)

Definition hex_digit (n : Z) : ascii :=
  match String.get (Z.to_nat n) "0123456789abcdef" with
  | Some c => c
  | None => "?"%char
  end.

(** The conversion [%x] of a [uint8_t] argument: lower-case hexadecimal
    without leading zero. *)
Definition printf_x (b : byte) : string :=
  let n := Z.of_N (Byte.to_N b) in
  if n <? 16 then String (hex_digit n) ""
  else String (hex_digit (n / 16)) (String (hex_digit (n mod 16)) "").

(** The line break that [printf] writes for a backslash-n. *)
Definition newline : string := String (ascii_of_nat 10) "".

Section Example.
Context {api : TPSC_Client_API}.

(** [i++] on an [int]: undefined at [INT_MAX]. *)
Definition int_incr (i : Z) : M Z :=
  if i <? INT_MAX then ret (i + 1) else undefined.

(** The [for] loop of [PrintMessage], from the test [i < len] on; [fuel]
    bounds the number of tests. *)
Fixpoint PrintMessage_loop (fuel : nat) (msg : cells) (len : Z) (i : Z) : M unit :=
  match fuel with
  | O => out_of_fuel
  | S fuel' =>
      if to_size_t i <? len then
        puts (printf_x (msg i) ++ ", ") ;;
        (if Z.rem i 8 =? 0 then puts newline else ret tt) ;;
        i' <- int_incr i ;;
        PrintMessage_loop fuel' msg len i'
      else ret tt
  end.

(** Print the contents of a message. *)
Definition PrintMessage (heading : string) (msg : cells) (len : Z) : M unit :=
  puts heading ;; puts newline ;;
  PrintMessage_loop (S (Z.to_nat len)) msg len 0 ;;
  puts newline.

Definition memcpy (dest : ptr) (src : cells) (n : Z) : M unit :=
  m <- gets mem ;; set_mem (memcpy_mem dest src n m).

Definition PrepareMessage (src : cells) (src_len : Z) (dest : ptr) (dest_len : Z) : M Z :=
  if src_len <=? dest_len then
    memcpy dest src src_len ;;
    ret TRUE
  else
    ret FALSE.

(** *** The calls into the client library

    Each applies the function of the library to the state and records
    the call. *)

(** [TPSC_ServiceDiscovery(&selector, &no_of_services, services_available)];
    the result carries the status and the new [no_of_services]. *)
Definition TPSC_ServiceDiscovery (sel : TPSC_ServiceSelector) (no_of_services : Z) : M (Z * Z) :=
  fun st =>
    let '(retval, n, arr, w) :=
      ServiceDiscovery sel no_of_services (services_available st) (world st) in
    (Done (retval, n),
     {| world := w; mem := mem st; brk := brk st;
        services_available := arr;
        stdout := stdout st; calls := calls st ++ [CallServiceDiscovery retval] |}).

(** [TPSC_OpenSession(&service_instance, login, NULL, &session)]. *)
Definition TPSC_OpenSession (instance : TPSC_UUID) (login : Z) (data : ptr)
  : M (Z * TPSC_Session) :=
  fun st =>
    let '(retval, session, w) := OpenSession instance login data (world st) in
    (Done (retval, session),
     {| world := w; mem := mem st; brk := brk st;
        services_available := services_available st;
        stdout := stdout st; calls := calls st ++ [CallOpenSession retval] |}).

(** [TPSC_InitializeTransaction(&buf, buffer, maxsize)]. *)
Definition TPSC_InitializeTransaction (buffer : ptr) (maxsize : Z)
  : M (Z * TPSC_MessageBuffer) :=
  fun st =>
    let '(retval, buf, w, m) := InitializeTransaction buffer maxsize (world st) (mem st) in
    (Done (retval, buf),
     {| world := w; mem := m; brk := brk st;
        services_available := services_available st;
        stdout := stdout st;
        calls := calls st ++ [CallInitializeTransaction buffer maxsize retval] |}).

(** [TPSC_ExecuteTransaction(&session, &send_buf, &recv_buf)]. *)
Definition TPSC_ExecuteTransaction (session : TPSC_Session)
    (send_buf recv_buf : TPSC_MessageBuffer)
  : M (Z * TPSC_Session * TPSC_MessageBuffer * TPSC_MessageBuffer) :=
  fun st =>
    let '(retval, session', send_buf', recv_buf', w, m) :=
      ExecuteTransaction session send_buf recv_buf (world st) (mem st) in
    (Done (retval, session', send_buf', recv_buf'),
     {| world := w; mem := m; brk := brk st;
        services_available := services_available st;
        stdout := stdout st;
        calls := calls st ++ [CallExecuteTransaction send_buf (mem st) retval] |}).

(** Perform Service Discovery.  The result carries the returned status
    and the value stored into [*service_id]. *)
Definition DoServiceDiscovery : M (Z * TPSC_ServiceIdentifier) :=
  (* sizeof(services_available) / sizeof(TPSC_ServiceIdentifier) *)
  let no_of_services := 3 in
  '(retval, no_of_services) <- TPSC_ServiceDiscovery selector no_of_services ;;
  (* The service we want is the first one in the list *)
  available <- gets services_available ;;
  ret (retval, available !!! 0%fin).

Definition main : M Z :=
  let send_msg := INPUT_MSG in
  PrintMessage "Input Message" (array send_msg) 20 ;;
  '(retval, svc_id) <- DoServiceDiscovery ;;
  (if retval =? TPSC_SUCCESS then
     '(retval, session) <-
       TPSC_OpenSession (service_instance svc_id) TPSC_LOGIN_PUBLIC NULL ;;
     if retval =? TPSC_SUCCESS then
       send_buffer <- malloc TRANSACTION_BUFFER_SIZE ;;
       recv_buffer <- malloc TRANSACTION_BUFFER_SIZE ;;
       '(retval, send_buf) <-
         TPSC_InitializeTransaction send_buffer TRANSACTION_BUFFER_SIZE ;;
       if retval =? TPSC_SUCCESS then
         '(retval, recv_buf) <-
           TPSC_InitializeTransaction recv_buffer TRANSACTION_BUFFER_SIZE ;;
         if retval =? TPSC_SUCCESS then
           prepared <-
             PrepareMessage (array send_msg) 20 send_buffer TRANSACTION_BUFFER_SIZE ;;
           log (CallPrepareMessage 20 send_buffer TRANSACTION_BUFFER_SIZE prepared) ;;
           let send_buf := MessageBuffer.set_size send_buf 20 in
           '(retval, session, send_buf, recv_buf) <-
             TPSC_ExecuteTransaction session send_buf recv_buf ;;
           if retval =? TPSC_SUCCESS then
             m <- gets mem ;;
             PrintMessage "Received Message"
               (m (MessageBuffer.message recv_buf)) (MessageBuffer.size recv_buf)
           else
             puts "Transaction failed!"
         else ret tt
       else ret tt
     else ret tt
   else
     puts "Service discovery failed") ;;
  ret 0.

(** The state in which the program starts: nothing printed, no call
    made, the static array zero-initialised. *)
Definition initial_state (w : World) (m : Mem) : State :=
  {| world := w; mem := m; brk := 1%N;
     services_available := vreplicate 3 zero_ServiceIdentifier;
     stdout := []; calls := [] |}.

End Example.

(** ** A platform for testing

    A stand-in for the client library: the platform state is the list of
    the statuses that the coming calls return (success once the list is
    used up).  A successful discovery stores one service in the first
    element of the array; a successful transaction answers the request with
    its four head bytes and the ROT13 image of the rest. *)

Definition next_status (w : list Z) : Z * list Z :=
  match w with
  | [] => (TPSC_SUCCESS, [])
  | r :: w' => (r, w')
  end.

Definition rot13_service : TPSC_ServiceIdentifier :=
  {| service_instance := {| bytes := repeat x01 16 |};
     identified_service := SERVICE_ID_GPP_ROT13 |}.

Definition rot13_reply (request : cells) : cells :=
  fun i => if i <? 4 then request i else rot13 (request i).

Definition scripted : TPSC_Client_API :=
  {| World := list Z;
     TPSC_Session := unit;
     ServiceDiscovery := fun sel n arr w =>
       let '(r, w') := next_status w in
       if r =? TPSC_SUCCESS then (r, 1, vinsert 0%fin rot13_service arr, w')
       else (r, 0, arr, w');
     OpenSession := fun instance login data w =>
       let '(r, w') := next_status w in (r, tt, w');
     InitializeTransaction := fun buffer maxsize w m =>
       let '(r, w') := next_status w in
       (r, {| MessageBuffer.message := buffer; MessageBuffer.size := 0;
              MessageBuffer.capacity := maxsize |}, w', m);
     ExecuteTransaction := fun session send_buf recv_buf w m =>
       let '(r, w') := next_status w in
       if r =? TPSC_SUCCESS then
         (r, session, send_buf,
          MessageBuffer.set_size recv_buf (MessageBuffer.size send_buf), w',
          memcpy_mem (MessageBuffer.message recv_buf)
            (rot13_reply (m (MessageBuffer.message send_buf)))
            (MessageBuffer.size send_buf) m)
       else (r, session, send_buf, recv_buf, w', m) |}.

(** An error status of the library (any value other than [TPSC_SUCCESS]). *)
Definition an_error : Z := 0xFFFF0000.

Definition blank : Mem := fun _ _ => x00.

(** The text on the standard output. *)
Definition text (out : list string) : string := String.concat "" out.

(** ** Vocabulary of the statements *)

(** The lexicographic order on (major, minor, patch). *)
Definition lex_lt (a b : TPSC_ServiceVersion) : Prop :=
  major_version a < major_version b
  \/ (major_version a = major_version b
      /\ (minor_version a < minor_version b
          \/ (minor_version a = minor_version b
              /\ patch_version a < patch_version b))).

(** What [PrintMessage] writes for the byte at index [i], and what one
    turn of its loop writes. *)
Definition hex_piece (msg : cells) (i : Z) : string := printf_x (msg i) ++ ", ".

Definition turn_output (msg : cells) (i : Z) : list string :=
  hex_piece msg i :: (if i mod 8 =? 0 then [newline] else []).

(** The pieces for the [n] bytes from index [from] on. *)
Definition hex_pieces (msg : cells) (from : Z) (n : nat) : list string :=
  map (fun k => hex_piece msg (from + Z.of_nat k)) (seq 0 n).

(** The lines of an output: the runs of pieces between line breaks. *)
Fixpoint split_lines (out : list string) : list (list string) :=
  match out with
  | [] => [[]]
  | s :: out' =>
      if String.eqb s newline then [] :: split_lines out'
      else
        match split_lines out' with
        | l :: ls => (s :: l) :: ls
        | [] => [[s]]
        end
  end.

(** What [main] prints first: the dump of the request. *)
Definition input_dump : list string :=
  ["Input Message"; newline]
  ++ flat_map (turn_output (array INPUT_MSG)) (map Z.of_nat (seq 0 20))
  ++ [newline].

(** The two messages with which [main] reports a failure. *)
Definition is_error_message (s : string) : bool :=
  String.eqb s "Service discovery failed" || String.eqb s "Transaction failed!".

(** The status of a call into the client library. *)
Definition api_status (c : Call) : option Z :=
  match c with
  | CallServiceDiscovery r => Some r
  | CallOpenSession r => Some r
  | CallInitializeTransaction _ _ r => Some r
  | CallPrepareMessage _ _ _ _ => None
  | CallExecuteTransaction _ _ r => Some r
  end.

Definition is_execute (c : Call) : bool :=
  match c with
  | CallExecuteTransaction _ _ _ => true
  | _ => false
  end.

Definition failed (c : Call) : bool :=
  match api_status c with
  | Some r => negb (r =? TPSC_SUCCESS)
  | None => false
  end.

Definition is_newline (s : string) : bool := String.eqb s newline.




(** Whether the last call of a trace is a discovery or a transaction that
    failed: the two failures for which [main] has an [else] branch. *)
Definition reported_failure (tr : list Call) : bool :=
  match List.last tr (CallPrepareMessage 0 NULL 0 TRUE) with
  | CallServiceDiscovery r | CallExecuteTransaction _ _ r => negb (r =? TPSC_SUCCESS)
  | _ => false
  end.

(** ** Proof steps *)

(** Reduction of the state after a step of the program. *)
Ltac step :=
  cbn [fst snd world mem brk services_available stdout calls write].

(** Closing a goal about the shape of a run. *)
Ltac shape :=
  repeat split;
  try assumption; try discriminate; try reflexivity;
  try (rewrite ?app_nil_r, <- ?app_assoc; reflexivity).

(** Running [main] up to each of its ends, after its first statement has
    been run by [input_run]; the results of the library's functions are
    named as they come. *)
Ltac run_main input_run :=
  unfold main; input_run;
  unfold DoServiceDiscovery, TPSC_ServiceDiscovery, TPSC_OpenSession,
    TPSC_InitializeTransaction, TPSC_ExecuteTransaction, PrepareMessage, memcpy,
    set_mem, malloc, log, gets, ret, puts, bind;
  step;
  let r := fresh "r" in
  match goal with
  | |- context [ServiceDiscovery ?a ?b ?c ?d] =>
      destruct (ServiceDiscovery a b c d) as [[[r ?n] ?arr] ?w] eqn:?Hdiscovery
  end;
  destruct (Z.eqb_spec r TPSC_SUCCESS) as [-> | ?Hr]; step;
  [ let r := fresh "r" in
    match goal with
    | |- context [OpenSession ?a ?b ?c ?d] =>
        destruct (OpenSession a b c d) as [[r ?session] ?w] eqn:?Hopen
    end;
    destruct (Z.eqb_spec r TPSC_SUCCESS) as [-> | ?Hr]; step;
    [ let r := fresh "r" in
      match goal with
      | |- context [InitializeTransaction ?a ?b ?c ?d] =>
          destruct (InitializeTransaction a b c d) as [[[r ?send_buf] ?w] ?m] eqn:?Hsend
      end;
      destruct (Z.eqb_spec r TPSC_SUCCESS) as [-> | ?Hr]; step;
      [ let r := fresh "r" in
        match goal with
        | |- context [InitializeTransaction ?a ?b ?c ?d] =>
            destruct (InitializeTransaction a b c d) as [[[r ?recv_buf] ?w] ?m] eqn:?Hrecv
        end;
        destruct (Z.eqb_spec r TPSC_SUCCESS) as [-> | ?Hr]; step;
        [ change (20 <=? TRANSACTION_BUFFER_SIZE) with true; step;
          let r := fresh "r" in
          match goal with
          | |- context [ExecuteTransaction ?a ?b ?c ?d ?e] =>
              destruct (ExecuteTransaction a b c d e)
                as [[[[[r ?session] ?send_buf] ?recv_buf] ?w] ?m] eqn:?Hexecute
          end;
          destruct (Z.eqb_spec r TPSC_SUCCESS) as [-> | ?Hr]; step
        | ]
      | ]
    | ]
  | ].

(** * Properties *)

(** ** Version ranges *)

Module VersionRangeFacts.
Import VersionRange.

Lemma version_ltb_lex a b : version_ltb a b = true <-> lex_lt a b.
Proof.
  unfold version_ltb, version_compare, lex_lt.
  destruct (Z.compare_spec (major_version a) (major_version b));
    destruct (Z.compare_spec (minor_version a) (minor_version b));
    destruct (Z.compare_spec (patch_version a) (patch_version b));
    split; intros; try discriminate; try reflexivity; lia.
Qed.

Lemma version_leb_lex a b : version_leb a b = true <-> lex_lt a b \/ a = b.
Proof.
  unfold version_leb, version_compare, lex_lt.
  destruct a as [a1 a2 a3], b as [b1 b2 b3]; simpl.
  destruct (Z.compare_spec a1 b1); destruct (Z.compare_spec a2 b2);
    destruct (Z.compare_spec a3 b3);
    split; intros H'; try discriminate; try reflexivity;
    try (right; congruence); try (left; lia);
    destruct H' as [H' | H']; try lia; inversion H'; lia.
Qed.

Lemma version_leb_ltb a b : version_leb a b = negb (version_ltb b a).
Proof.
  unfold version_leb, version_ltb, version_compare.
  rewrite (Z.compare_antisym (major_version a) (major_version b)).
  rewrite (Z.compare_antisym (minor_version a) (minor_version b)).
  rewrite (Z.compare_antisym (patch_version a) (patch_version b)).
  destruct (major_version a ?= major_version b);
    destruct (minor_version a ?= minor_version b);
    destruct (patch_version a ?= patch_version b); reflexivity.
Qed.

(** The range of the selector accepts exactly the versions from 0.0.1 up
    to, not including, 1.1.1 and from 1.2.0 up to, not including, 2.0.0. *)
Lemma selector_range_accepts v :
  accepts (service_version_range selector) v = true <->
  ((lex_lt (version 0 0 1) v \/ version 0 0 1 = v) /\ lex_lt v (version 1 1 1))
  \/ ((lex_lt (version 1 2 0) v \/ version 1 2 0 = v) /\ lex_lt v (version 2 0 0)).
Proof.
  unfold accepts, within; simpl.
  change {| major_version := 0; minor_version := 0; patch_version := 1 |}
    with (version 0 0 1).
  change {| major_version := 1; minor_version := 1; patch_version := 1 |}
    with (version 1 1 1).
  change {| major_version := 1; minor_version := 2; patch_version := 0 |}
    with (version 1 2 0).
  change {| major_version := 2; minor_version := 0; patch_version := 0 |}
    with (version 2 0 0).
  rewrite (version_leb_ltb (version 1 1 1) v).
  rewrite !andb_true_iff, negb_true_iff, andb_false_iff, negb_false_iff.
  rewrite <- !version_leb_lex, <- !version_ltb_lex.
  assert (Hlt : version_ltb (version 1 1 1) (version 1 2 0) = true) by reflexivity.
  split.
  - intros [[Hlo Hhi] [Hex | Hex]]; [left; tauto | right; split; [| assumption]].
    rewrite version_leb_ltb. now rewrite Hex.
  - intros [[Hlo Hhi] | [Hlo Hhi]].
    + repeat split; try assumption; [| now left].
      apply version_ltb_lex. apply version_ltb_lex in Hhi.
      unfold lex_lt in *; simpl in *; lia.
    + repeat split; try assumption.
      * apply version_leb_lex. apply version_leb_lex in Hlo.
        unfold lex_lt in *; simpl in *.
        destruct Hlo as [Hlo | Hlo]; [left; lia | subst v; simpl; left; lia].
      * right. rewrite version_leb_ltb in Hlo.
        now apply negb_true_iff in Hlo.
Qed.

(** C1. The selector built by [DoServiceDiscovery] has the four bounds
    lowest acceptable = Inclusive 0.0.1, first excluded = Inclusive 1.1.1,
    last excluded = Exclusive 1.2.0, highest acceptable = Exclusive 2.0.0;
    under [accepts] this range rejects 1.1.1, accepts 1.1.0, accepts 1.2.0
    and rejects 2.0.0. *)
Theorem selector_range_scenario :
  service_version_range selector =
    {| lowest_acceptable_version := Inclusive (version 0 0 1);
       first_excluded_version := Inclusive (version 1 1 1);
       last_excluded_version := Exclusive (version 1 2 0);
       highest_acceptable_version := Exclusive (version 2 0 0) |}
  /\ accepts (service_version_range selector) (version 1 1 1) = false
  /\ accepts (service_version_range selector) (version 1 1 0) = true
  /\ accepts (service_version_range selector) (version 1 2 0) = true
  /\ accepts (service_version_range selector) (version 2 0 0) = false.
Proof. repeat split. Qed.

End VersionRangeFacts.

(** ** The request and the expected response *)

Lemma rot13_involutive b : rot13 (rot13 b) = b.
Proof. destruct b; reflexivity. Qed.

(** C5. [EXPECT_MSG] has the same four head bytes as [INPUT_MSG], namely
    0xCA tag(10), 0xA1 map(1), 0x01 and 0x70 tstr(16), so its first two
    bytes are 0xCA 0xA1; and its sixteen text bytes are the ROT13 image of
    the sixteen text bytes of [INPUT_MSG]: "Thisgoestoeleven" becomes
    "Guvftbrfgbryrira". *)
Theorem expect_msg_is_rot13_of_input_msg :
  firstn 4 EXPECT_MSG = firstn 4 INPUT_MSG
  /\ firstn 4 INPUT_MSG = [xca; xa1; x01; x70]
  /\ map cbor_head (firstn 4 INPUT_MSG) = [(Tag, 10); (Map, 1); (Unsigned, 1); (Tstr, 16)]
  /\ firstn 2 EXPECT_MSG = [xca; xa1]
  /\ length (skipn 4 INPUT_MSG) = 16%nat
  /\ length (skipn 4 EXPECT_MSG) = 16%nat
  /\ skipn 4 EXPECT_MSG = map rot13 (skipn 4 INPUT_MSG)
  /\ string_of_bytes (skipn 4 INPUT_MSG) = "Thisgoestoeleven"
  /\ string_of_bytes (skipn 4 EXPECT_MSG) = "Guvftbrfgbryrira".
Proof. repeat split. Qed.

(** ** Lines of output *)

Lemma hex_piece_not_newline msg i : hex_piece msg i <> newline.
Proof.
  unfold hex_piece, printf_x, newline.
  destruct (Z.of_N (Byte.to_N (msg i)) <? 16); simpl; discriminate.
Qed.

Lemma hex_pieces_not_newline msg from n :
  Forall (fun s => s <> newline) (hex_pieces msg from n).
Proof.
  unfold hex_pieces. apply Forall_map, Forall_forall.
  intros k _. apply hex_piece_not_newline.
Qed.

Lemma split_lines_break l rest :
  Forall (fun s => s <> newline) l ->
  split_lines (l ++ newline :: rest) = l :: split_lines rest.
Proof.
  induction 1 as [| s l Hs _ IH]; simpl.
  - reflexivity.
  - apply String.eqb_neq in Hs. now rewrite Hs, IH.
Qed.

Lemma hex_pieces_S msg from n :
  hex_pieces msg from (S n) = hex_piece msg from :: hex_pieces msg (from + 1) n.
Proof.
  unfold hex_pieces. cbn [seq map]. rewrite Z.add_0_r. f_equal.
  rewrite <- seq_shift, map_map. apply map_ext. intros k. f_equal. lia.
Qed.

Lemma hex_pieces_app msg from n1 n2 :
  hex_pieces msg from (n1 + n2) =
  (hex_pieces msg from n1 ++ hex_pieces msg (from + Z.of_nat n1) n2)%list.
Proof.
  revert from. induction n1 as [| n1 IH]; intros from.
  - simpl. now rewrite Z.add_0_r.
  - cbn [Nat.add]. rewrite !hex_pieces_S, IH. simpl app. do 3 f_equal. lia.
Qed.

(** A run of turns none of whose indices is a multiple of 8 writes the
    bytes and no line break. *)
Lemma turns_without_break msg n :
  forall s : nat,
    (forall k, (k < n)%nat -> Z.of_nat (s + k) mod 8 <> 0) ->
    flat_map (turn_output msg) (map Z.of_nat (seq s n)) = hex_pieces msg (Z.of_nat s) n.
Proof.
  induction n as [| n IH]; intros s Hs; [reflexivity |].
  cbn [seq map flat_map]. rewrite hex_pieces_S. unfold turn_output at 1.
  pose proof (Hs 0%nat ltac:(lia)) as H0. rewrite Nat.add_0_r in H0.
  apply Z.eqb_neq in H0. rewrite H0. simpl app. f_equal.
  rewrite IH.
  - f_equal. lia.
  - intros k Hk. replace (S s + k)%nat with (s + S k)%nat by lia. apply Hs. lia.
Qed.

(** The eight turns from an index that is 1 modulo 8 write eight bytes
    and then a line break. *)
Lemma turns_full_row msg (s : nat) :
  Z.of_nat s mod 8 = 1 ->
  flat_map (turn_output msg) (map Z.of_nat (seq s 8)) =
  (hex_pieces msg (Z.of_nat s) 8 ++ [newline])%list.
Proof.
  intros Hs. change 8%nat with (7 + 1)%nat.
  rewrite seq_app, map_app, flat_map_app, hex_pieces_app.
  rewrite turns_without_break.
  - rewrite <- app_assoc. f_equal.
    assert (H0 : (Z.of_nat (s + 7) mod 8 =? 0) = true).
    { apply Z.eqb_eq. rewrite Nat2Z.inj_add, <- Zplus_mod_idemp_l, Hs. reflexivity. }
    cbn [seq map flat_map]. unfold turn_output, hex_pieces. rewrite H0.
    cbn [seq map app]. rewrite Z.add_0_r. do 2 f_equal. lia.
  - intros k Hk. rewrite Nat2Z.inj_add, <- Zplus_mod_idemp_l, Hs.
    rewrite Z.mod_small; lia.
Qed.

(** The lines written for the bytes from an index that is 1 modulo 8 on:
    [q] rows of eight bytes, then the remaining [r] bytes, then the end
    of the output. *)
Lemma rows_of_eight msg r :
  (r < 8)%nat ->
  forall q s,
    Z.of_nat s mod 8 = 1 ->
    split_lines (flat_map (turn_output msg) (map Z.of_nat (seq s (8 * q + r))) ++ [newline]) =
    (map (fun k => hex_pieces msg (Z.of_nat s + 8 * Z.of_nat k) 8) (seq 0 q)
     ++ [hex_pieces msg (Z.of_nat s + 8 * Z.of_nat q) r; []])%list.
Proof.
  intros Hr. induction q as [| q IH]; intros s Hs.
  - rewrite Nat.mul_0_r, Nat.add_0_l. rewrite turns_without_break.
    + rewrite split_lines_break by apply hex_pieces_not_newline.
      simpl. now rewrite Z.add_0_r.
    + intros k Hk. rewrite Nat2Z.inj_add, <- Zplus_mod_idemp_l, Hs.
      rewrite Z.mod_small; lia.
  - replace (8 * S q + r)%nat with (8 + (8 * q + r))%nat by lia.
    rewrite seq_app, map_app, flat_map_app, turns_full_row by assumption.
    rewrite <- !app_assoc. cbn [app].
    rewrite split_lines_break by apply hex_pieces_not_newline.
    rewrite IH.
    + cbn [seq map app]. rewrite Z.add_0_r. f_equal.
      rewrite <- seq_shift, map_map. f_equal.
      * apply map_ext. intros k. f_equal. lia.
      * do 2 f_equal. lia.
    + rewrite Nat2Z.inj_add, <- Zplus_mod_idemp_l, Hs. reflexivity.
Qed.

(** Without its line breaks, the output of the turns is the bytes in
    order. *)
Lemma turns_bytes msg l :
  List.filter (fun s => negb (String.eqb s newline)) (flat_map (turn_output msg) l) =
  map (hex_piece msg) l.
Proof.
  induction l as [| i l IH]; [reflexivity |].
  cbn [flat_map map]. rewrite List.filter_app, IH. clear IH.
  pose proof (hex_piece_not_newline msg i) as Hne. apply String.eqb_neq in Hne.
  unfold turn_output. destruct (i mod 8 =? 0); cbn [List.filter]; rewrite Hne; reflexivity.
Qed.

(** ** The output of [PrintMessage] *)

Section PrintMessageFacts.
Context {api : TPSC_Client_API}.

Lemma write_write (st : State) a b : write b (write a st) = write (a ++ b) st.
Proof. unfold write; simpl. now rewrite app_assoc. Qed.

Lemma write_nil (st : State) : write [] st = st.
Proof. destruct st; unfold write; simpl. now rewrite app_nil_r. Qed.

Lemma to_size_t_small i : 0 <= i <= INT_MAX -> to_size_t i = i.
Proof.
  intros H. unfold to_size_t. apply Z.mod_small.
  unfold INT_MAX, SIZE_MAX in *. lia.
Qed.

Lemma bind_Done {A B} (m : M A) (k : A -> M B) st a st' :
  m st = (Done a, st') -> bind m k st = k a st'.
Proof. intros H. unfold bind. now rewrite H. Qed.

Lemma bind_Undefined {A B} (m : M A) (k : A -> M B) st st' :
  m st = (Undefined, st') -> bind m k st = (Undefined, st').
Proof. intros H. unfold bind. now rewrite H. Qed.

Lemma bind_puts {B} s (k : unit -> M B) st : bind (puts s) k st = k tt (write [s] st).
Proof. reflexivity. Qed.

(** What the body of the loop writes before the counter is incremented. *)
Lemma turn_writes msg i st :
  0 <= i ->
  (if Z.rem i 8 =? 0 then puts newline else ret tt) (write [printf_x (msg i) ++ ", "] st)
  = (Done tt, write (turn_output msg i) st).
Proof.
  intros Hi. unfold turn_output, hex_piece. rewrite Z.rem_mod_nonneg by lia.
  destruct (i mod 8 =? 0); unfold puts, ret.
  - now rewrite write_write.
  - reflexivity.
Qed.

(** One turn of the loop, for a counter below [len] and below [INT_MAX]. *)
Lemma PrintMessage_loop_turn fuel msg len i st :
  0 <= i < len -> i < INT_MAX ->
  PrintMessage_loop (S fuel) msg len i st =
  PrintMessage_loop fuel msg len (i + 1) (write (turn_output msg i) st).
Proof.
  intros Hi Hmax. cbn [PrintMessage_loop].
  rewrite to_size_t_small by lia.
  destruct (Z.ltb_spec i len) as [_ | ?]; [| lia].
  rewrite bind_puts. rewrite (bind_Done _ _ _ _ _ (turn_writes msg i st ltac:(lia))).
  unfold bind, int_incr.
  destruct (Z.ltb_spec i INT_MAX) as [_ | ?]; [reflexivity | lia].
Qed.

(** The loop from [i] on, when [len] is within the range of the counter:
    it ends, having written the turns for [i], ..., [len - 1]. *)
Lemma PrintMessage_loop_spec msg len n :
  forall i fuel st,
    0 <= i -> i + Z.of_nat n = len -> len <= INT_MAX -> (n < fuel)%nat ->
    PrintMessage_loop fuel msg len i st =
    (Done tt,
     write (flat_map (turn_output msg) (map (fun k => i + Z.of_nat k) (seq 0 n))) st).
Proof.
  induction n as [| n IH]; intros i fuel st Hi Hlen Hmax Hfuel;
    (destruct fuel as [| fuel]; [lia |]).
  - cbn [PrintMessage_loop]. rewrite to_size_t_small by lia.
    destruct (Z.ltb_spec i len); [lia |].
    simpl. now rewrite write_nil.
  - rewrite PrintMessage_loop_turn by lia.
    rewrite (IH (i + 1)) by lia.
    rewrite write_write. do 2 f_equal.
    cbn [seq map flat_map]. rewrite Z.add_0_r. do 2 f_equal.
    rewrite <- seq_shift, map_map. apply map_ext. intros k. lia.
Qed.

(** The loop from [i] on, when [len] is beyond the range of the counter:
    the increment at [INT_MAX] is undefined. *)
Lemma PrintMessage_loop_overflow msg len n :
  INT_MAX < len ->
  forall i fuel st,
    0 <= i -> i + Z.of_nat n = INT_MAX -> (n < fuel)%nat ->
    fst (PrintMessage_loop fuel msg len i st) = Undefined.
Proof.
  intros Hlen. induction n as [| n IH]; intros i fuel st Hi Hn Hfuel;
    (destruct fuel as [| fuel]; [lia |]).
  - cbn [PrintMessage_loop]. rewrite to_size_t_small by lia.
    destruct (Z.ltb_spec i len); [| lia].
    rewrite bind_puts. rewrite (bind_Done _ _ _ _ _ (turn_writes msg i st ltac:(lia))).
    unfold bind, int_incr.
    destruct (Z.ltb_spec i INT_MAX); [lia | reflexivity].
  - rewrite PrintMessage_loop_turn by lia. apply IH; lia.
Qed.

(** The loop only writes to the standard output. *)
Lemma PrintMessage_loop_writes msg len fuel :
  forall i st, exists out, snd (PrintMessage_loop fuel msg len i st) = write out st.
Proof.
  induction fuel as [| fuel IH]; intros i st.
  - exists []. simpl. now rewrite write_nil.
  - cbn [PrintMessage_loop].
    destruct (to_size_t i <? len).
    + rewrite bind_puts.
      assert (Hturn : exists out,
        (if Z.rem i 8 =? 0 then puts newline else ret tt) (write [printf_x (msg i) ++ ", "] st)
        = (Done tt, write out st)).
      { destruct (Z.rem i 8 =? 0); unfold puts, ret.
        - rewrite write_write. eauto.
        - eauto. }
      destruct Hturn as [out1 Hturn]. rewrite (bind_Done _ _ _ _ _ Hturn).
      unfold bind, int_incr.
      destruct (i <? INT_MAX).
      * unfold ret. destruct (IH (i + 1) (write out1 st)) as [out2 ->].
        rewrite write_write. eauto.
      * unfold undefined; simpl. eauto.
    + exists []. unfold ret; simpl. now rewrite write_nil.
Qed.

Lemma PrintMessage_writes heading msg len st :
  exists out, snd (PrintMessage heading msg len st) = write (heading :: newline :: out) st.
Proof.
  unfold PrintMessage, bind, puts.
  destruct (PrintMessage_loop_writes msg len (S (Z.to_nat len)) 0
              (write [newline] (write [heading] st))) as [out Hout].
  destruct (PrintMessage_loop _ msg len 0 _) as [[[] | |] st'] eqn:Hrun; simpl in Hout;
    subst st'; simpl; rewrite !write_write; simpl; eauto.
Qed.

(** A message whose length is within the range of the counter is printed
    whole. *)
Lemma PrintMessage_spec heading msg len st :
  0 <= len <= INT_MAX ->
  PrintMessage heading msg len st =
  (Done tt,
   write ([heading; newline]
          ++ flat_map (turn_output msg) (map Z.of_nat (seq 0 (Z.to_nat len)))
          ++ [newline]) st).
Proof.
  intros Hlen. unfold PrintMessage, bind, puts.
  rewrite (PrintMessage_loop_spec msg len (Z.to_nat len)) by lia.
  rewrite !write_write. reflexivity.
Qed.

(** A message longer than [INT_MAX] runs the counter into its overflow. *)
Lemma PrintMessage_overflow heading msg len st :
  INT_MAX < len -> fst (PrintMessage heading msg len st) = Undefined.
Proof.
  intros Hlen. unfold PrintMessage, bind, puts.
  assert (H : fst (PrintMessage_loop (S (Z.to_nat len)) msg len 0
                     (write [newline] (write [heading] st))) = Undefined).
  { apply (PrintMessage_loop_overflow msg len (Z.to_nat INT_MAX) Hlen);
      unfold INT_MAX in *; lia. }
  destruct (PrintMessage_loop _ msg len 0 _) as [[[] | |] st'];
    simpl in H |- *; (discriminate H || reflexivity).
Qed.

(** The function always comes to an end: the fuel is never used up. *)
Lemma PrintMessage_fuel heading msg len st :
  fst (PrintMessage heading msg len st) <> OutOfFuel.
Proof.
  destruct (Z_le_gt_dec len INT_MAX) as [Hle | Hgt].
  - destruct (Z_le_gt_dec 0 len) as [H0 | Hneg].
    + rewrite PrintMessage_spec by lia. discriminate.
    + unfold PrintMessage, bind, puts.
      replace (Z.to_nat len) with 0%nat by lia.
      cbn [PrintMessage_loop]. unfold to_size_t. rewrite Z.mod_0_l by (unfold SIZE_MAX; lia).
      destruct (Z.ltb_spec 0 len); [lia |]. simpl. discriminate.
  - rewrite PrintMessage_overflow by lia. discriminate.
Qed.

(** X14. For every message of length [len] from 1 to [INT_MAX], the
    largest value of the counter [int i], [PrintMessage] prints all [len]
    bytes, in order, with a line break right after the byte at index 0 and
    after each byte whose index is a multiple of 8 and nowhere else in the
    loop: the first line of byte output holds exactly one byte, each of the
    [(len - 1) / 8] lines after it holds eight, and the last line holds
    the [(len - 1) mod 8] bytes that remain. *)
Theorem PrintMessage_rows heading msg len st :
  1 <= len <= INT_MAX ->
  let q := Z.to_nat ((len - 1) / 8) in
  let r := Z.to_nat ((len - 1) mod 8) in
  exists body,
    PrintMessage heading msg len st = (Done tt, write ([heading; newline] ++ body) st)
    /\ body = (flat_map (turn_output msg) (map Z.of_nat (seq 0 (Z.to_nat len)))
               ++ [newline])%list
    /\ List.filter (fun s => negb (String.eqb s newline)) body
       = hex_pieces msg 0 (Z.to_nat len)
    /\ split_lines body =
       ([hex_piece msg 0]
        :: map (fun k => hex_pieces msg (1 + 8 * Z.of_nat k) 8) (seq 0 q)
        ++ [hex_pieces msg (1 + 8 * Z.of_nat q) r; []])%list.
Proof.
  intros Hlen q r. eexists. split; [| split; [reflexivity | split]].
  - now rewrite PrintMessage_spec by lia.
  - rewrite List.filter_app, turns_bytes. simpl. rewrite app_nil_r, map_map.
    apply map_ext. intros k. reflexivity.
  - pose proof (Z.div_mod (len - 1) 8 ltac:(lia)) as Hdiv.
    pose proof (Z.mod_pos_bound (len - 1) 8 ltac:(lia)) as Hmod.
    assert (Hq : 0 <= (len - 1) / 8) by (apply Z.div_pos; lia).
    replace (Z.to_nat len) with (S (8 * q + r)) by (subst q r; lia).
    clear Hdiv.
    cbn [seq map flat_map]. unfold turn_output at 1.
    change (Z.of_nat 0) with 0. change (0 mod 8 =? 0) with true. cbn [app].
    change (hex_piece msg 0 :: newline :: ?l) with ([hex_piece msg 0] ++ newline :: l)%list.
    rewrite (split_lines_break [hex_piece msg 0])
      by (constructor; [apply hex_piece_not_newline | constructor]).
    f_equal. rewrite (rows_of_eight msg r ltac:(subst r; lia) q 1 eq_refl).
    reflexivity.
Qed.

End PrintMessageFacts.

(** The program's own request, of 20 bytes, is within the statement. *)
Lemma PrintMessage_rows_witness :
  1 <= 20 <= INT_MAX
  /\ exists body,
      @PrintMessage scripted "Input Message" (array INPUT_MSG) 20
        (@initial_state scripted [] blank)
      = (Done tt, write ([("Input Message" : string); newline] ++ body)
                    (@initial_state scripted [] blank))
      /\ body = (flat_map (turn_output (array INPUT_MSG))
                  (map Z.of_nat (seq 0 (Z.to_nat 20))) ++ [newline])%list
      /\ List.filter (fun s => negb (String.eqb s newline)) body
         = hex_pieces (array INPUT_MSG) 0 (Z.to_nat 20)
      /\ split_lines body =
         ([hex_piece (array INPUT_MSG) 0]
          :: map (fun k => hex_pieces (array INPUT_MSG) (1 + 8 * Z.of_nat k) 8)
               (seq 0 (Z.to_nat ((20 - 1) / 8)))
          ++ [hex_pieces (array INPUT_MSG) (1 + 8 * Z.of_nat (Z.to_nat ((20 - 1) / 8)))
                (Z.to_nat ((20 - 1) mod 8)); []])%list.
Proof.
  split; [unfold INT_MAX; lia |].
  apply (@PrintMessage_rows scripted "Input Message" (array INPUT_MSG) 20).
  unfold INT_MAX; lia.
Defined.


(** The dump of the request that [main] prints first. *)
Example input_message_dump :
  text (stdout (snd (@PrintMessage scripted "Input Message" (array INPUT_MSG) 20
                       (@initial_state scripted [] blank))))
  = String.concat newline
      ["Input Message"; "ca, "; "a1, 1, 70, 54, 68, 69, 73, 67, ";
       "6f, 65, 73, 74, 6f, 65, 6c, 65, "; "76, 65, 6e, "; ""].
Proof. vm_compute. reflexivity. Qed.

(** The loop from [i] on, when [len] is beyond the range of the counter:
    the turns for [i], ..., [INT_MAX] are written, and then the increment
    is undefined. *)
Lemma PrintMessage_loop_overflow_output {api : TPSC_Client_API} msg len n :
  INT_MAX < len ->
  forall i fuel st,
    0 <= i -> i + Z.of_nat n = INT_MAX -> (n < fuel)%nat ->
    PrintMessage_loop fuel msg len i st =
    (Undefined,
     write (flat_map (turn_output msg) (map (fun k => i + Z.of_nat k) (seq 0 (S n)))) st).
Proof.
  intros Hlen. induction n as [| n IH]; intros i fuel st Hi Hn Hfuel;
    (destruct fuel as [| fuel]; [lia |]).
  - cbn [PrintMessage_loop]. rewrite to_size_t_small by lia.
    destruct (Z.ltb_spec i len); [| lia].
    rewrite bind_puts. rewrite (bind_Done _ _ _ _ _ (turn_writes msg i st ltac:(lia))).
    unfold bind, int_incr.
    destruct (Z.ltb_spec i INT_MAX); [lia |].
    cbn [seq map flat_map]. now rewrite Z.add_0_r, app_nil_r.
  - rewrite PrintMessage_loop_turn by lia.
    rewrite (IH (i + 1)) by lia.
    rewrite write_write. do 2 f_equal.
    remember (S n) as k eqn:Hk. clear Hk.
    cbn [seq map flat_map]. rewrite Z.add_0_r. do 2 f_equal.
    rewrite <- seq_shift, map_map. apply map_ext. intros j. lia.
Qed.

(** A message longer than [INT_MAX]: after the heading, the bytes at the
    indices 0 to [INT_MAX] are printed and nothing more. *)
Lemma PrintMessage_overflow_output {api : TPSC_Client_API} heading msg len st :
  INT_MAX < len ->
  PrintMessage heading msg len st =
  (Undefined,
   write ([heading; newline]
          ++ flat_map (turn_output msg) (map Z.of_nat (seq 0 (S (Z.to_nat INT_MAX))))) st).
Proof.
  intros Hlen. unfold PrintMessage. rewrite !bind_puts. unfold bind.
  rewrite (PrintMessage_loop_overflow_output msg len (Z.to_nat INT_MAX) Hlen)
    by (unfold INT_MAX in *; lia).
  rewrite (map_ext (fun k => 0 + Z.of_nat k) Z.of_nat) by (intros k; lia).
  generalize (flat_map (turn_output msg) (map Z.of_nat (seq 0 (S (Z.to_nat INT_MAX))))).
  intros turns. rewrite !write_write. reflexivity.
Qed.

(** C10, on a message that it covers and the code does not print.  The
    claim holds of every message that the counter [int i] can index (X14),
    but [len] is a [size_t]: for a message of
    [INT_MAX + 2] bytes [PrintMessage] prints the heading and the bytes at
    the indices 0 to [INT_MAX], then runs into the overflow of [i++]; the
    byte at index [INT_MAX + 1] and the closing line break are not
    printed, whereas the claim has all [len] bytes printed. *)
Theorem PrintMessage_counter_overflow :
  1 <= INT_MAX + 2 <= SIZE_MAX
  /\ @PrintMessage scripted "Long message" (fun _ => x00) (INT_MAX + 2)
       (@initial_state scripted [] blank)
     = (Undefined,
        write (["Long message"; newline]
               ++ flat_map (turn_output (fun _ => x00))
                    (map Z.of_nat (seq 0 (S (Z.to_nat INT_MAX)))))
          (@initial_state scripted [] blank)).
Proof.
  split; [unfold INT_MAX, SIZE_MAX; lia |].
  apply (@PrintMessage_overflow_output scripted). lia.
Qed.

(** ** [PrepareMessage] *)

Lemma load_bytes_array (a : list byte) : load_bytes (array a) (length a) = a.
Proof.
  unfold load_bytes, array.
  rewrite (map_ext _ (fun i => nth i a x00)) by (intros i; now rewrite Nat2Z.id).
  induction a as [| b a IH]; simpl; [reflexivity |].
  f_equal. now rewrite <- seq_shift, map_map.
Qed.

Lemma load_bytes_ext (c c' : cells) n :
  (forall i, 0 <= i < Z.of_nat n -> c i = c' i) -> load_bytes c n = load_bytes c' n.
Proof.
  intros H. unfold load_bytes. apply map_ext_in. intros i Hi.
  apply in_seq in Hi. apply H. lia.
Qed.

Lemma memcpy_mem_load (a : list byte) dest m :
  load_bytes (memcpy_mem dest (array a) (Z.of_nat (length a)) m dest) (length a) = a.
Proof.
  transitivity (load_bytes (array a) (length a)); [| apply load_bytes_array].
  apply load_bytes_ext. intros i Hi. unfold memcpy_mem. rewrite N.eqb_refl.
  destruct (Z.leb_spec 0 i); [| lia].
  destruct (Z.ltb_spec i (Z.of_nat (length a))); [reflexivity | lia].
Qed.

Section PrepareMessageFacts.
Context {api : TPSC_Client_API}.

(** C3. When [src_len <= dest_len], [PrepareMessage] returns [TRUE] and
    afterwards the first [src_len] cells of the destination are those of
    the source, byte for byte: reading them back gives what was written.
    Nothing else changes. *)
Theorem PrepareMessage_fits (src : cells) src_len dest dest_len st :
  src_len <= dest_len ->
  exists st',
    PrepareMessage src src_len dest dest_len st = (Done TRUE, st')
    /\ (forall i, 0 <= i < src_len -> mem st' dest i = src i)
    /\ load_bytes (mem st' dest) (Z.to_nat src_len) = load_bytes src (Z.to_nat src_len)
    /\ (forall p i, p <> dest \/ ~ 0 <= i < src_len -> mem st' p i = mem st p i)
    /\ world st' = world st /\ brk st' = brk st
    /\ services_available st' = services_available st
    /\ stdout st' = stdout st /\ calls st' = calls st.
Proof.
  intros Hle. unfold PrepareMessage.
  destruct (Z.leb_spec src_len dest_len) as [_ | ?]; [| lia].
  eexists. split; [reflexivity |]. cbn.
  assert (Hcopy : forall i, 0 <= i < src_len -> memcpy_mem dest src src_len (mem st) dest i = src i).
  { intros i Hi. unfold memcpy_mem. rewrite N.eqb_refl.
    destruct (Z.leb_spec 0 i); [| lia]. destruct (Z.ltb_spec i src_len); [| lia].
    reflexivity. }
  repeat split; try assumption.
  - apply load_bytes_ext. intros i Hi. apply Hcopy. lia.
  - intros p i Hout. unfold memcpy_mem.
    destruct (N.eqb_spec p dest) as [-> | Hp]; [| reflexivity].
    destruct (Z.leb_spec 0 i); [| reflexivity].
    destruct (Z.ltb_spec i src_len); [| reflexivity].
    destruct Hout as [Hout | Hout]; [congruence | lia].
Qed.

(** C4. When [src_len > dest_len], [PrepareMessage] returns [FALSE] and
    copies nothing: the whole state, the destination buffer and every
    other cell of the memory with it, is as it was.  (The function is given
    the two byte pointers only; no size field is within its reach.) *)
Theorem PrepareMessage_too_long (src : cells) src_len dest dest_len st :
  src_len > dest_len ->
  PrepareMessage src src_len dest dest_len st = (Done FALSE, st).
Proof.
  intros Hgt. unfold PrepareMessage.
  destruct (Z.leb_spec src_len dest_len); [lia | reflexivity].
Qed.

(** ** [DoServiceDiscovery] *)

(** C2. Whatever [TPSC_ServiceDiscovery] returns as status [retval],
    number of services [n] and array contents [arr], zero services and a
    failure included, [DoServiceDiscovery] stores the first element of the
    array into [*service_id] and returns [retval] as it is; when the call
    wrote nothing to the zero-initialised static array, what it stores is
    the zeroed identifier. *)
Theorem DoServiceDiscovery_first_element st retval n arr w :
  ServiceDiscovery selector 3 (services_available st) (world st) = (retval, n, arr, w) ->
  fst (DoServiceDiscovery st) = Done (retval, arr !!! 0%fin)
  /\ services_available (snd (DoServiceDiscovery st)) = arr
  /\ calls (snd (DoServiceDiscovery st)) = (calls st ++ [CallServiceDiscovery retval])%list
  /\ (services_available st = vreplicate 3 zero_ServiceIdentifier ->
      arr = services_available st ->
      fst (DoServiceDiscovery st) = Done (retval, zero_ServiceIdentifier)).
Proof.
  intros Hcall.
  assert (Hrun : DoServiceDiscovery st =
    (Done (retval, arr !!! 0%fin),
     {| world := w; mem := mem st; brk := brk st; services_available := arr;
        stdout := stdout st;
        calls := (calls st ++ [CallServiceDiscovery retval])%list |})).
  { unfold DoServiceDiscovery, bind, TPSC_ServiceDiscovery, gets, ret.
    now rewrite Hcall. }
  rewrite Hrun. repeat split.
  intros Hzero Hsame. cbn. now rewrite Hsame, Hzero.
Qed.

End PrepareMessageFacts.

Lemma PrepareMessage_fits_witness :
  20 <= 256
  /\ exists st',
      @PrepareMessage scripted (array INPUT_MSG) 20 1%N 256 (@initial_state scripted [] blank)
      = (Done TRUE, st')
      /\ load_bytes (mem st' 1%N) (Z.to_nat 20) = load_bytes (array INPUT_MSG) (Z.to_nat 20).
Proof.
  split; [lia |].
  destruct (@PrepareMessage_fits scripted (array INPUT_MSG) 20 1%N 256
              (@initial_state scripted [] blank) ltac:(lia))
    as (st' & Hrun & _ & Hload & _).
  exists st'. split; assumption.
Defined.

Lemma PrepareMessage_too_long_witness :
  300 > 256
  /\ @PrepareMessage scripted (fun _ => x2a) 300 1%N 256 (@initial_state scripted [] blank)
     = (Done FALSE, @initial_state scripted [] blank).
Proof.
  split; [lia |].
  apply (@PrepareMessage_too_long scripted (fun _ => x2a) 300 1%N 256). lia.
Defined.

(** A discovery that fails, reports no service and writes nothing: the
    zeroed identifier is handed on with the error status. *)
Lemma DoServiceDiscovery_first_element_witness :
  @ServiceDiscovery scripted selector 3
    (services_available (@initial_state scripted [an_error] blank))
    (world (@initial_state scripted [an_error] blank))
  = (an_error, 0, vreplicate 3 zero_ServiceIdentifier, [])
  /\ fst (@DoServiceDiscovery scripted (@initial_state scripted [an_error] blank))
     = Done (an_error, zero_ServiceIdentifier).
Proof.
  split; [reflexivity |].
  apply (@DoServiceDiscovery_first_element scripted
           (@initial_state scripted [an_error] blank)
           an_error 0 (vreplicate 3 zero_ServiceIdentifier) []);
    reflexivity.
Defined.

(** ** The runs of [main] *)

Section MainFacts.
Context {api : TPSC_Client_API}.

(** Every run of [main] has one of six shapes, told apart by the first
    call that fails. *)
Lemma main_cases (st : State) :
  let D := CallServiceDiscovery in
  let O := CallOpenSession in
  let I := fun p => CallInitializeTransaction p TRANSACTION_BUFFER_SIZE in
  let P := fun p => CallPrepareMessage 20 p TRANSACTION_BUFFER_SIZE TRUE in
  let X := CallExecuteTransaction in
  let ok := TPSC_SUCCESS in
  let send_buffer := brk st in
  let recv_buffer := N.succ (brk st) in
  exists out,
    stdout (snd (main st)) = (stdout st ++ input_dump ++ out)%list
    /\ fst (main st) <> OutOfFuel
    /\ ((exists r, r <> ok
           /\ calls (snd (main st)) = (calls st ++ [D r])%list
           /\ out = ["Service discovery failed"] /\ fst (main st) = Done 0)
        \/ (exists r, r <> ok
           /\ calls (snd (main st)) = (calls st ++ [D ok; O r])%list
           /\ out = [] /\ fst (main st) = Done 0)
        \/ (exists r, r <> ok
           /\ calls (snd (main st)) = (calls st ++ [D ok; O ok; I send_buffer r])%list
           /\ out = [] /\ fst (main st) = Done 0)
        \/ (exists r, r <> ok
           /\ calls (snd (main st))
              = (calls st ++ [D ok; O ok; I send_buffer ok; I recv_buffer r])%list
           /\ out = [] /\ fst (main st) = Done 0)
        \/ (exists r send_buf m, r <> ok
           /\ calls (snd (main st))
              = (calls st ++ [D ok; O ok; I send_buffer ok; I recv_buffer ok;
                              P send_buffer; X send_buf m r])%list
           /\ MessageBuffer.size send_buf = 20
           /\ load_bytes (m send_buffer) 20 = INPUT_MSG
           /\ out = ["Transaction failed!"] /\ fst (main st) = Done 0)
        \/ (exists send_buf m more,
           calls (snd (main st))
           = (calls st ++ [D ok; O ok; I send_buffer ok; I recv_buffer ok;
                           P send_buffer; X send_buf m ok])%list
           /\ MessageBuffer.size send_buf = 20
           /\ load_bytes (m send_buffer) 20 = INPUT_MSG
           /\ out = ("Received Message" :: newline :: more)%list)).
Proof.
  intros D O I P X ok send_buffer recv_buffer.
  unfold main.
  rewrite (bind_Done _ _ _ _ _
             (PrintMessage_spec "Input Message" (array INPUT_MSG) 20 st
                ltac:(unfold INT_MAX; lia))).
  change (write _ st) with (write input_dump st).
  unfold DoServiceDiscovery, TPSC_ServiceDiscovery, TPSC_OpenSession,
    TPSC_InitializeTransaction, TPSC_ExecuteTransaction, malloc, log, gets, ret, puts, bind.
  step.
  destruct (ServiceDiscovery selector 3 (services_available st) (world st))
    as [[[r n] arr] w1] eqn:Hd.
  destruct (Z.eqb_spec r TPSC_SUCCESS) as [-> | Hr].
  2:{ exists ["Service discovery failed"]. step. shape.
      left. exists r. shape. }
  step.
  destruct (OpenSession _ _ _ w1) as [[r session] w2] eqn:Ho.
  destruct (Z.eqb_spec r TPSC_SUCCESS) as [-> | Hr].
  2:{ exists []. step. shape.
      right; left. exists r. shape. }
  step.
  destruct (InitializeTransaction (brk st) _ w2 (mem st)) as [[[r send_buf] w3] m3] eqn:Hi1.
  destruct (Z.eqb_spec r TPSC_SUCCESS) as [-> | Hr].
  2:{ exists []. step. shape.
      right; right; left. exists r. shape. }
  step.
  destruct (InitializeTransaction (N.succ (brk st)) _ w3 m3) as [[[r recv_buf] w4] m4] eqn:Hi2.
  destruct (Z.eqb_spec r TPSC_SUCCESS) as [-> | Hr].
  2:{ exists []. step. shape.
      right; right; right; left. exists r. shape. }
  step.
  unfold PrepareMessage, memcpy, set_mem, gets, ret, bind.
  change (20 <=? TRANSACTION_BUFFER_SIZE) with true. step.
  destruct (ExecuteTransaction session _ recv_buf w4 _)
    as [[[[[r session'] send_buf'] recv_buf'] w5] m5] eqn:Hx.
  assert (Hload : load_bytes (memcpy_mem (brk st) (array INPUT_MSG) 20 m4 (brk st)) 20
                  = INPUT_MSG) by apply (memcpy_mem_load INPUT_MSG).
  destruct (Z.eqb_spec r TPSC_SUCCESS) as [-> | Hr].
  2:{ exists ["Transaction failed!"]. step. shape.
      right; right; right; right; left.
      exists r, (MessageBuffer.set_size send_buf 20),
        (memcpy_mem (brk st) (array INPUT_MSG) 20 m4). shape. }
  match goal with
  | |- context [PrintMessage ?h ?c ?n ?s] =>
      destruct (PrintMessage_writes h c n s) as [more Hmore];
      pose proof (PrintMessage_fuel h c n s) as Hfuel;
      destruct (PrintMessage h c n s) as [o st6]
  end.
  cbn [fst snd] in Hmore, Hfuel. subst st6.
  exists ("Received Message" :: newline :: more).
  assert (Hshape :
    exists send_buf0 m0 more0,
      (calls st ++ [D ok; O ok; I send_buffer ok; I recv_buffer ok; P send_buffer;
                    X (MessageBuffer.set_size send_buf 20)
                      (memcpy_mem (brk st) (array INPUT_MSG) 20 m4) ok])%list
      = (calls st ++ [D ok; O ok; I send_buffer ok; I recv_buffer ok; P send_buffer;
                      X send_buf0 m0 ok])%list
      /\ MessageBuffer.size send_buf0 = 20
      /\ load_bytes (m0 send_buffer) 20 = INPUT_MSG
      /\ ("Received Message" :: newline :: more)%list
         = ("Received Message" :: newline :: more0)%list).
  { exists (MessageBuffer.set_size send_buf 20),
      (memcpy_mem (brk st) (array INPUT_MSG) 20 m4), more. shape. }
  destruct o as [[] | |]; [| | congruence]; step;
    (split; [shape | split; [discriminate |]]);
    do 5 right; rewrite <- !app_assoc; exact Hshape.
Qed.



(** In a list of calls that ends with its only call of
    [TPSC_ExecuteTransaction], that call is found at the end. *)
Lemma execute_is_last (b : list Call) c a l d :
  forallb (fun x => negb (is_execute x)) l = true ->
  is_execute c = true ->
  (b ++ c :: a)%list = (l ++ [d])%list -> b = l /\ a = [] /\ c = d.
Proof.
  revert b. induction l as [| y l IH]; intros b Hl Hc Heq.
  - destruct b as [| z b]; simpl in Heq.
    + now inversion Heq.
    + inversion Heq as [[Hz Hb]]. destruct b; discriminate.
  - simpl in Hl. apply andb_true_iff in Hl as [Hy Hl].
    destruct b as [| z b]; simpl in Heq.
    + inversion Heq as [[Hz Hb]]. subst y. rewrite Hc in Hy. discriminate.
    + inversion Heq as [[Hz Hb]]. subst z.
      destruct (IH b Hl Hc Hb) as (-> & -> & ->). repeat split.
Qed.

(** C7. In every run of [main] the calls come in the order service
    discovery, session open, initialisation of the send buffer,
    initialisation of the receive buffer, preparation of the request,
    execution of the transaction; the run stops calling at the first status
    that is not [TPSC_SUCCESS], so that no call but the last has failed; and
    [TPSC_ExecuteTransaction] is called only
    after the discovery, the session open and both initialisations returned
    [TPSC_SUCCESS], and it is the last call. *)
Theorem main_call_order w m :
  let tr := calls (snd (main (initial_state w m))) in
  let D := CallServiceDiscovery in
  let O := CallOpenSession in
  let I := fun p => CallInitializeTransaction p TRANSACTION_BUFFER_SIZE in
  let P := fun p => CallPrepareMessage 20 p TRANSACTION_BUFFER_SIZE TRUE in
  let X := CallExecuteTransaction in
  let ok := TPSC_SUCCESS in
  ((exists r, r <> ok /\ tr = [D r])
   \/ (exists r, r <> ok /\ tr = [D ok; O r])
   \/ (exists r, r <> ok /\ tr = [D ok; O ok; I 1%N r])
   \/ (exists r, r <> ok /\ tr = [D ok; O ok; I 1%N ok; I 2%N r])
   \/ (exists r send_buf mm,
         tr = [D ok; O ok; I 1%N ok; I 2%N ok; P 1%N; X send_buf mm r]))
  /\ forallb (fun c => negb (failed c)) (removelast tr) = true
  /\ (forall before send_buf mm r after,
        tr = (before ++ X send_buf mm r :: after)%list ->
        before = [D ok; O ok; I 1%N ok; I 2%N ok; P 1%N] /\ after = []).
Proof.
  intros tr D O I P X ok.
  assert (Hshape :
    (exists r, r <> ok /\ tr = [D r])
    \/ (exists r, r <> ok /\ tr = [D ok; O r])
    \/ (exists r, r <> ok /\ tr = [D ok; O ok; I 1%N r])
    \/ (exists r, r <> ok /\ tr = [D ok; O ok; I 1%N ok; I 2%N r])
    \/ (exists r send_buf mm,
          tr = [D ok; O ok; I 1%N ok; I 2%N ok; P 1%N; X send_buf mm r])).
  { destruct (main_cases (initial_state w m)) as (out & _ & _ & Hcases).
    cbn [initial_state calls brk app] in Hcases. change (N.succ 1) with 2%N in Hcases.
    destruct Hcases as
      [(r & Hr & Hc & _) | [(r & Hr & Hc & _) | [(r & Hr & Hc & _) | [(r & Hr & Hc & _)
      | [(r & sb & mm & Hr & Hc & _) | (sb & mm & more & Hc & _)]]]]]; subst tr; rewrite Hc.
    - left; eauto.
    - right; left; eauto.
    - do 2 right; left; eauto.
    - do 3 right; left; eauto.
    - do 4 right; eauto.
    - do 4 right; eauto. }
  split; [exact Hshape |]. split.
  { destruct Hshape as
      [(r' & _ & ->) | [(r' & _ & ->) | [(r' & _ & ->) | [(r' & _ & ->)
      | (r' & sb & mm' & ->)]]]]; reflexivity. }
  intros before send_buf mm r after Htr. rewrite Htr in Hshape.
  destruct Hshape as
    [(r' & _ & Hc) | [(r' & _ & Hc) | [(r' & _ & Hc) | [(r' & _ & Hc) | (r' & sb & mm' & Hc)]]]].
  - apply (execute_is_last _ _ _ [] _) in Hc; [| reflexivity | reflexivity].
    destruct Hc as (_ & _ & Hc). discriminate Hc.
  - apply (execute_is_last _ _ _ [D ok] _) in Hc; [| reflexivity | reflexivity].
    destruct Hc as (_ & _ & Hc). discriminate Hc.
  - apply (execute_is_last _ _ _ [D ok; O ok] _) in Hc; [| reflexivity | reflexivity].
    destruct Hc as (_ & _ & Hc). discriminate Hc.
  - apply (execute_is_last _ _ _ [D ok; O ok; I 1%N ok] _) in Hc;
      [| reflexivity | reflexivity].
    destruct Hc as (_ & _ & Hc). discriminate Hc.
  - apply (execute_is_last _ _ _ [D ok; O ok; I 1%N ok; I 2%N ok; P 1%N] _) in Hc;
      [| reflexivity | reflexivity].
    destruct Hc as (-> & -> & _). split; reflexivity.
Qed.


(** C8. [INPUT_MSG] has exactly 20 bytes, and whenever [main] calls
    [TPSC_ExecuteTransaction], the send buffer of
    [TRANSACTION_BUFFER_SIZE] = 256 bytes (the block given to the first
    [TPSC_InitializeTransaction]) holds all 20 of them at its start, the
    length passed to [PrepareMessage] is 20 and the field [size] of the
    request buffer is 20, the length of the message. *)
Theorem main_request w m send_buf mm r :
  In (CallExecuteTransaction send_buf mm r) (calls (snd (main (initial_state w m)))) ->
  length INPUT_MSG = 20%nat
  /\ TRANSACTION_BUFFER_SIZE = 256
  /\ In (CallInitializeTransaction 1%N TRANSACTION_BUFFER_SIZE TPSC_SUCCESS)
       (calls (snd (main (initial_state w m))))
  /\ In (CallPrepareMessage (Z.of_nat (length INPUT_MSG)) 1%N TRANSACTION_BUFFER_SIZE TRUE)
       (calls (snd (main (initial_state w m))))
  /\ load_bytes (mm 1%N) (length INPUT_MSG) = INPUT_MSG
  /\ MessageBuffer.size send_buf = Z.of_nat (length INPUT_MSG).
Proof.
  intros Hin.
  destruct (main_cases (initial_state w m)) as (out & _ & _ & Hcases).
  cbn [initial_state calls brk app] in Hcases. change (N.succ 1) with 2%N in Hcases.
  destruct Hcases as
    [(r0 & Hr & Hc & _) | [(r0 & Hr & Hc & _) | [(r0 & Hr & Hc & _) | [(r0 & Hr & Hc & _)
    | [(r0 & sb & mm0 & Hr & Hc & Hsize & Hload & _)
    | (sb & mm0 & more & Hc & Hsize & Hload & _)]]]]];
    rewrite Hc in Hin |- *; cbn [In] in Hin;
    repeat (destruct Hin as [Hin | Hin]; try discriminate Hin); try contradiction;
    inversion Hin; subst; cbn [In]; repeat split; auto 10.
Qed.

(** C9. Every call of [PrepareMessage] that [main] makes has
    [src_len] = 20 and [dest_len] = [TRANSACTION_BUFFER_SIZE] = 256, hence
    [src_len <= dest_len], and returns [TRUE], never [FALSE]. *)
Theorem main_PrepareMessage_TRUE w m src_len dest dest_len prepared :
  In (CallPrepareMessage src_len dest dest_len prepared)
     (calls (snd (main (initial_state w m)))) ->
  src_len = 20 /\ dest_len = TRANSACTION_BUFFER_SIZE /\ dest_len = 256
  /\ src_len <= dest_len
  /\ prepared = TRUE /\ prepared <> FALSE.
Proof.
  intros Hin.
  destruct (main_cases (initial_state w m)) as (out & _ & _ & Hcases).
  cbn [initial_state calls brk app] in Hcases.
  destruct Hcases as
    [(r0 & Hr & Hc & _) | [(r0 & Hr & Hc & _) | [(r0 & Hr & Hc & _) | [(r0 & Hr & Hc & _)
    | [(r0 & sb & mm0 & Hr & Hc & _) | (sb & mm0 & more & Hc & _)]]]]];
    rewrite Hc in Hin; cbn [In] in Hin;
    repeat (destruct Hin as [Hin | Hin]; try discriminate Hin); try contradiction;
    inversion Hin; subst; repeat split; try discriminate; reflexivity.
Qed.

(** When the session cannot be opened or a transaction buffer cannot be
    initialised, [main] prints the dump of the request and nothing more. *)
Lemma main_silent_failures (st : State) c :
  In c (calls (snd (main st))) ->
  match c with
  | CallOpenSession r | CallInitializeTransaction _ _ r => r <> TPSC_SUCCESS
  | _ => False
  end ->
  In c (calls st) \/ stdout (snd (main st)) = (stdout st ++ input_dump)%list.
Proof.
  intros Hin Hc.
  destruct (main_cases st) as (out & Hout & _ & Hcases).
  destruct Hcases as
    [(r0 & Hr & Hcalls & Ho & _) | [(r0 & Hr & Hcalls & Ho & _)
    | [(r0 & Hr & Hcalls & Ho & _) | [(r0 & Hr & Hcalls & Ho & _)
    | [(r0 & sb & mm0 & Hr & Hcalls & _) | (sb & mm0 & more & Hcalls & _)]]]]];
    rewrite Hcalls in Hin; apply in_app_or in Hin as [Hin | Hin]; auto;
    try (right; rewrite Hout, Ho, app_nil_r; reflexivity);
    exfalso; cbn [In] in Hin;
    repeat (destruct Hin as [Hin | Hin]; [subst c; try contradiction; now apply Hc |]);
    contradiction.
Qed.

End MainFacts.

(** ** Runs on the test platform *)

(** A run in which every call succeeds. *)
Example main_all_succeed :
  let run := @main scripted (@initial_state scripted [] blank) in
  fst run = Done 0
  /\ text (stdout (snd run))
     = String.concat newline
         ["Input Message"; "ca, "; "a1, 1, 70, 54, 68, 69, 73, 67, ";
          "6f, 65, 73, 74, 6f, 65, 6c, 65, "; "76, 65, 6e, ";
          "Received Message"; "ca, "; "a1, 1, 70, 47, 75, 76, 66, 74, ";
          "62, 72, 66, 67, 62, 72, 79, 72, "; "69, 72, 61, "; ""].
Proof. vm_compute. split; reflexivity. Qed.

Lemma main_call_order_witness :
  calls (snd (@main scripted (@initial_state scripted [TPSC_SUCCESS; an_error] blank)))
  = [CallServiceDiscovery TPSC_SUCCESS; CallOpenSession an_error]
  /\ (forall before send_buf mm r after,
        calls (snd (@main scripted (@initial_state scripted [TPSC_SUCCESS; an_error] blank)))
        = (before ++ CallExecuteTransaction send_buf mm r :: after)%list ->
        before = [CallServiceDiscovery TPSC_SUCCESS; CallOpenSession TPSC_SUCCESS;
                  CallInitializeTransaction 1%N TRANSACTION_BUFFER_SIZE TPSC_SUCCESS;
                  CallInitializeTransaction 2%N TRANSACTION_BUFFER_SIZE TPSC_SUCCESS;
                  CallPrepareMessage 20 1%N TRANSACTION_BUFFER_SIZE TRUE]
        /\ after = []).
Proof.
  split; [reflexivity |].
  exact (proj2 (proj2 (@main_call_order scripted [TPSC_SUCCESS; an_error] blank))).
Defined.

Lemma main_request_witness :
  In (CallExecuteTransaction
        {| MessageBuffer.message := 1%N; MessageBuffer.size := 20;
           MessageBuffer.capacity := 256 |}
        (memcpy_mem 1%N (array INPUT_MSG) 20 blank) TPSC_SUCCESS)
     (calls (snd (@main scripted (@initial_state scripted [] blank))))
  /\ load_bytes (memcpy_mem 1%N (array INPUT_MSG) 20 blank 1%N) (length INPUT_MSG)
     = INPUT_MSG.
Proof.
  assert (Hin :
    In (CallExecuteTransaction
          {| MessageBuffer.message := 1%N; MessageBuffer.size := 20;
             MessageBuffer.capacity := 256 |}
          (memcpy_mem 1%N (array INPUT_MSG) 20 blank) TPSC_SUCCESS)
       (calls (snd (@main scripted (@initial_state scripted [] blank))))).
  { vm_compute. do 5 right. left. reflexivity. }
  split; [exact Hin |].
  exact (proj1 (proj2 (proj2 (proj2 (proj2
           (@main_request scripted [] blank _ _ _ Hin)))))).
Defined.

Lemma main_PrepareMessage_TRUE_witness :
  In (CallPrepareMessage 20 1%N 256 1)
     (calls (snd (@main scripted (@initial_state scripted [] blank))))
  /\ 1 = TRUE.
Proof.
  assert (Hin : In (CallPrepareMessage 20 1%N 256 1)
                   (calls (snd (@main scripted (@initial_state scripted [] blank))))).
  { vm_compute. do 4 right. left. reflexivity. }
  split; [exact Hin |].
  exact (proj1 (proj2 (proj2 (proj2 (proj2
           (@main_PrepareMessage_TRUE scripted [] blank _ _ _ _ Hin)))))).
Defined.

(** C6, on two runs that it does not cover.  When [TPSC_OpenSession]
    returns an error, or when [TPSC_InitializeTransaction] does, [main]
    ends after the failed call having printed the dump of the request and
    no error message: these failures are not reported, whereas a failed
    discovery and a failed transaction are. *)
Theorem main_unreported_failures :
  let no_session :=
    snd (@main scripted (@initial_state scripted [TPSC_SUCCESS; an_error] blank)) in
  let no_buffer :=
    snd (@main scripted
           (@initial_state scripted [TPSC_SUCCESS; TPSC_SUCCESS; an_error] blank)) in
  let no_service := snd (@main scripted (@initial_state scripted [an_error] blank)) in
  an_error <> TPSC_SUCCESS
  /\ calls no_session = [CallServiceDiscovery TPSC_SUCCESS; CallOpenSession an_error]
  /\ existsb failed (calls no_session) = true
  /\ stdout no_session = input_dump
  /\ existsb is_error_message (stdout no_session) = false
  /\ calls no_buffer
     = [CallServiceDiscovery TPSC_SUCCESS; CallOpenSession TPSC_SUCCESS;
        CallInitializeTransaction 1%N TRANSACTION_BUFFER_SIZE an_error]
  /\ existsb failed (calls no_buffer) = true
  /\ stdout no_buffer = input_dump
  /\ existsb is_error_message (stdout no_buffer) = false
  /\ calls no_service = [CallServiceDiscovery an_error]
  /\ stdout no_service = (input_dump ++ ["Service discovery failed"])%list.
Proof. vm_compute. repeat split; discriminate. Qed.

(** * Further properties of the example *)

(** ** [PrintMessage]: what it reads and what it writes *)




Section PrintMessageMore.
Context {api : TPSC_Client_API}.

(** The loop writes line breaks and the pieces of bytes below [len] only. *)
Lemma PrintMessage_loop_pieces msg len fuel :
  forall i st,
    0 <= i <= INT_MAX ->
    exists out,
      snd (PrintMessage_loop fuel msg len i st) = write out st
      /\ Forall (fun s => s = newline \/ exists j, 0 <= j < len /\ s = hex_piece msg j) out.
Proof.
  induction fuel as [| fuel IH]; intros i st Hi.
  - exists []. simpl. rewrite write_nil. auto.
  - cbn [PrintMessage_loop]. rewrite to_size_t_small by lia.
    destruct (Z.ltb_spec i len) as [Hlt | Hge].
    + rewrite bind_puts.
      rewrite (bind_Done _ _ _ _ _ (turn_writes msg i st ltac:(lia))).
      assert (Hturn : Forall (fun s => s = newline \/ exists j, 0 <= j < len /\ s = hex_piece msg j)
                        (turn_output msg i)).
      { unfold turn_output. constructor; [right; exists i; split; [lia | reflexivity] |].
        destruct (i mod 8 =? 0); repeat constructor. }
      unfold bind, int_incr.
      destruct (Z.ltb_spec i INT_MAX).
      * unfold ret. destruct (IH (i + 1) (write (turn_output msg i) st) ltac:(lia))
          as (out2 & -> & Hout2).
        rewrite write_write. eexists. split; [reflexivity |].
        apply Forall_app. auto.
      * unfold undefined; simpl. eauto.
    + exists []. unfold ret; simpl. rewrite write_nil. auto.
Qed.

(** X1. Whatever the length, [PrintMessage] only appends to the standard
    output: the platform, the memory, the static array and the calls are as
    before, what was printed earlier is kept, and what is added is the
    heading, a line break, and then nothing but line breaks and the pieces
    of bytes at indices below [len]. *)
Theorem PrintMessage_only_prints heading msg len st :
  exists out,
    stdout (snd (PrintMessage heading msg len st))
    = (stdout st ++ heading :: newline :: out)%list
    /\ Forall (fun s => s = newline \/ exists j, 0 <= j < len /\ s = hex_piece msg j) out
    /\ world (snd (PrintMessage heading msg len st)) = world st
    /\ mem (snd (PrintMessage heading msg len st)) = mem st
    /\ brk (snd (PrintMessage heading msg len st)) = brk st
    /\ services_available (snd (PrintMessage heading msg len st)) = services_available st
    /\ calls (snd (PrintMessage heading msg len st)) = calls st.
Proof.
  unfold PrintMessage. rewrite !bind_puts.
  destruct (PrintMessage_loop_pieces msg len (S (Z.to_nat len)) 0
              (write [newline] (write [heading] st)) ltac:(unfold INT_MAX; lia))
    as (out & Hout & Hpieces).
  unfold bind, puts.
  destruct (PrintMessage_loop _ msg len 0 _) as [[[] | |] st'];
    cbn [snd] in Hout; subst st'; cbn [snd]; rewrite !write_write.
  - exists (out ++ [newline])%list. cbn [write stdout world mem brk services_available calls].
    repeat split; try reflexivity.
    apply Forall_app. split; [assumption | repeat constructor].
  - exists out. cbn [write stdout world mem brk services_available calls].
    repeat split; try reflexivity; assumption.
  - exists out. cbn [write stdout world mem brk services_available calls].
    repeat split; try reflexivity; assumption.
Qed.

(** X2. [PrintMessage] always comes to an end, and how it ends depends on
    the length alone: with a value when [len <= INT_MAX], in the overflow
    of its counter when [len] is larger. *)
Theorem PrintMessage_outcome heading msg len st :
  fst (PrintMessage heading msg len st)
  = if len <=? INT_MAX then Done tt else Undefined.
Proof.
  destruct (Z.leb_spec len INT_MAX) as [Hle | Hgt].
  - destruct (Z_le_gt_dec 0 len) as [H0 | Hneg].
    + now rewrite PrintMessage_spec by lia.
    + unfold PrintMessage. rewrite !bind_puts.
      replace (Z.to_nat len) with 0%nat by lia.
      cbn [PrintMessage_loop]. unfold to_size_t.
      rewrite Z.mod_0_l by (unfold SIZE_MAX; lia).
      destruct (Z.ltb_spec 0 len); [lia | reflexivity].
  - apply PrintMessage_overflow. lia.
Qed.

Lemma count_breaks msg n :
  length (List.filter is_newline
            (flat_map (turn_output msg) (map Z.of_nat (seq 0 n))))
  = Z.to_nat ((Z.of_nat n + 7) / 8).
Proof.
  induction n as [| n IH]; [reflexivity |].
  rewrite seq_S, map_app, flat_map_app, List.filter_app, length_app, IH.
  cbn [seq map flat_map Nat.add]. rewrite app_nil_r. unfold turn_output.
  cbn [List.filter].
  pose proof (hex_piece_not_newline msg (Z.of_nat n)) as Hne.
  apply String.eqb_neq in Hne. unfold is_newline at 1. rewrite Hne.
  pose proof (Z.div_mod (Z.of_nat n) 8 ltac:(lia)) as H0.
  pose proof (Z.mod_pos_bound (Z.of_nat n) 8 ltac:(lia)) as H0'.
  pose proof (Z.div_mod (Z.of_nat n + 7) 8 ltac:(lia)) as H7.
  pose proof (Z.mod_pos_bound (Z.of_nat n + 7) 8 ltac:(lia)) as H7'.
  pose proof (Z.div_mod (Z.of_nat (S n) + 7) 8 ltac:(lia)) as H8.
  pose proof (Z.mod_pos_bound (Z.of_nat (S n) + 7) 8 ltac:(lia)) as H8'.
  destruct (Z.eqb_spec (Z.of_nat n mod 8) 0) as [Hz | Hnz];
    [change (length (List.filter is_newline [newline])) with 1%nat
    | change (length (List.filter is_newline [])) with 0%nat];
    lia.
Qed.

(** X3. A message of [len] bytes, [0 <= len <= INT_MAX], is dumped as
    [len] pieces of bytes and [(len + 7) / 8 + 2] line breaks after the
    heading: one after the heading, one for each index that is a multiple
    of 8, and the closing one.  The empty message gives the heading and
    two line breaks. *)
Theorem PrintMessage_counts heading msg len st :
  0 <= len <= INT_MAX ->
  exists out,
    stdout (snd (PrintMessage heading msg len st)) = (stdout st ++ heading :: out)%list
    /\ length (List.filter is_newline out) = Z.to_nat ((len + 7) / 8 + 2)
    /\ length (List.filter (fun s => negb (is_newline s)) out) = Z.to_nat len
    /\ (len = 0 -> out = [newline; newline]).
Proof.
  intros Hlen. rewrite PrintMessage_spec by assumption.
  eexists. split; [reflexivity |].
  assert (Hq : 0 <= (len + 7) / 8) by (apply Z.div_pos; lia).
  repeat split.
  - cbn [List.filter]. unfold is_newline at 1. rewrite String.eqb_refl.
    rewrite List.filter_app. cbn [List.filter]. unfold is_newline at 2.
    rewrite String.eqb_refl. cbn [length]. rewrite length_app, count_breaks.
    rewrite Z2Nat.id by lia. cbn [length]. lia.
  - cbn [List.filter]. unfold is_newline at 1. rewrite String.eqb_refl. cbn [negb].
    rewrite List.filter_app. cbn [List.filter]. unfold is_newline at 2.
    rewrite String.eqb_refl. cbn [negb]. rewrite app_nil_r.
    unfold is_newline. rewrite turns_bytes, !length_map, length_seq. reflexivity.
  - intros ->. reflexivity.
Qed.

(** The loop reads the message at indices below [len] only. *)
Lemma PrintMessage_loop_reads msg msg' len fuel :
  (forall j, 0 <= j < len -> msg j = msg' j) ->
  forall i st,
    0 <= i <= INT_MAX ->
    PrintMessage_loop fuel msg len i st = PrintMessage_loop fuel msg' len i st.
Proof.
  intros Hsame. induction fuel as [| fuel IH]; intros i st Hi; [reflexivity |].
  cbn [PrintMessage_loop]. rewrite to_size_t_small by lia.
  destruct (Z.ltb_spec i len) as [Hlt | Hge]; [| reflexivity].
  rewrite <- (Hsame i) by lia. rewrite !bind_puts.
  rewrite !(bind_Done _ _ _ _ _ (turn_writes msg i st ltac:(lia))).
  unfold bind, int_incr.
  destruct (Z.ltb_spec i INT_MAX); [| reflexivity].
  unfold ret. apply IH. lia.
Qed.

(** X4. [PrintMessage] never reads the message outside the indices
    [0 .. len - 1]: two messages that agree there are printed alike, with
    the same outcome and the same final state, whatever the length. *)
Theorem PrintMessage_reads_within heading msg msg' len st :
  (forall j, 0 <= j < len -> msg j = msg' j) ->
  PrintMessage heading msg len st = PrintMessage heading msg' len st.
Proof.
  intros Hsame. unfold PrintMessage. rewrite !bind_puts. unfold bind.
  rewrite (PrintMessage_loop_reads msg msg' len _ Hsame) by (unfold INT_MAX; lia).
  reflexivity.
Qed.


End PrintMessageMore.

(** ** [PrepareMessage]: bounds and repeated use *)

Section PrepareMessageMore.
Context {api : TPSC_Client_API}.

Lemma PrepareMessage_run src src_len dest dest_len st :
  PrepareMessage src src_len dest dest_len st
  = if src_len <=? dest_len
    then (Done TRUE,
          {| world := world st; mem := memcpy_mem dest src src_len (mem st);
             brk := brk st; services_available := services_available st;
             stdout := stdout st; calls := calls st |})
    else (Done FALSE, st).
Proof. unfold PrepareMessage. destruct (src_len <=? dest_len); reflexivity. Qed.

(** X6. [PrepareMessage] never writes outside the destination: whatever
    its arguments, it returns [TRUE] or [FALSE], every cell of another block
    and every cell of the destination at an index outside
    [0 .. dest_len - 1] is as before, and so is everything but the memory. *)
Theorem PrepareMessage_within_capacity src src_len dest dest_len st :
  exists prepared st',
    PrepareMessage src src_len dest dest_len st = (Done prepared, st')
    /\ (prepared = TRUE \/ prepared = FALSE)
    /\ (forall p i, p <> dest \/ i < 0 \/ dest_len <= i -> mem st' p i = mem st p i)
    /\ world st' = world st /\ brk st' = brk st
    /\ services_available st' = services_available st
    /\ stdout st' = stdout st /\ calls st' = calls st.
Proof.
  rewrite PrepareMessage_run.
  destruct (Z.leb_spec src_len dest_len) as [Hle | Hgt]; do 2 eexists;
    (split; [reflexivity |]); cbn [world mem brk services_available stdout calls];
    repeat split; auto.
  intros p i Hout. unfold memcpy_mem.
  destruct (N.eqb_spec p dest) as [-> | Hp]; [| reflexivity].
  destruct (Z.leb_spec 0 i); [| reflexivity].
  destruct (Z.ltb_spec i src_len); [| reflexivity].
  destruct Hout as [Hout | Hout]; [congruence | lia].
Qed.

(** X7. [PrepareMessage] never reads the source outside the indices
    [0 .. src_len - 1]: two sources that agree there give the same return
    value and the same memory. *)
Theorem PrepareMessage_reads_within src src' src_len dest dest_len st :
  (forall i, 0 <= i < src_len -> src i = src' i) ->
  fst (PrepareMessage src src_len dest dest_len st)
  = fst (PrepareMessage src' src_len dest dest_len st)
  /\ forall p i,
       mem (snd (PrepareMessage src src_len dest dest_len st)) p i
       = mem (snd (PrepareMessage src' src_len dest dest_len st)) p i.
Proof.
  intros Hsame. rewrite !PrepareMessage_run.
  destruct (src_len <=? dest_len); split; try reflexivity.
  intros p i. cbn [snd mem]. unfold memcpy_mem.
  destruct (N.eqb p dest); [| reflexivity].
  destruct (Z.leb_spec 0 i); [| reflexivity].
  destruct (Z.ltb_spec i src_len); [| reflexivity].
  apply Hsame. lia.
Qed.

(** X8. A second message overwrites the first from the start of the
    buffer and clears nothing: after [PrepareMessage] with [a] and then
    with [b], both fitting, the destination holds [b] at the indices below
    [lb], still holds [a] at the indices from [lb] up to [la], and is as it
    was beyond. *)
Theorem PrepareMessage_overwrites a la b lb dest dest_len st :
  la <= dest_len -> lb <= dest_len ->
  forall i,
    mem (snd (PrepareMessage b lb dest dest_len
                (snd (PrepareMessage a la dest dest_len st)))) dest i
    = if (0 <=? i) && (i <? lb) then b i
      else if (0 <=? i) && (i <? la) then a i
      else mem st dest i.
Proof.
  intros Ha Hb i. rewrite !PrepareMessage_run.
  destruct (Z.leb_spec la dest_len); [| lia].
  destruct (Z.leb_spec lb dest_len); [| lia].
  cbn [snd mem]. unfold memcpy_mem. rewrite N.eqb_refl. reflexivity.
Qed.

(** ** [DoServiceDiscovery]: the static array across calls *)

Lemma DoServiceDiscovery_run st retval n arr w :
  ServiceDiscovery selector 3 (services_available st) (world st) = (retval, n, arr, w) ->
  DoServiceDiscovery st =
  (Done (retval, arr !!! 0%fin),
   {| world := w; mem := mem st; brk := brk st; services_available := arr;
      stdout := stdout st;
      calls := (calls st ++ [CallServiceDiscovery retval])%list |}).
Proof.
  intros Hcall.
  unfold DoServiceDiscovery, bind, TPSC_ServiceDiscovery, gets, ret.
  now rewrite Hcall.
Qed.

(** X9. The array of [DoServiceDiscovery] is static, so a result
    outlives the call: when a second discovery writes nothing to the array
    that the first one left, the second [DoServiceDiscovery] hands out the
    identifier found by the first, with the status of the second. *)
Theorem DoServiceDiscovery_stale_result st r1 n1 arr1 w1 r2 n2 w2 :
  ServiceDiscovery selector 3 (services_available st) (world st) = (r1, n1, arr1, w1) ->
  ServiceDiscovery selector 3 arr1 w1 = (r2, n2, arr1, w2) ->
  fst (DoServiceDiscovery st) = Done (r1, arr1 !!! 0%fin)
  /\ fst (DoServiceDiscovery (snd (DoServiceDiscovery st))) = Done (r2, arr1 !!! 0%fin).
Proof.
  intros H1 H2. rewrite (DoServiceDiscovery_run st _ _ _ _ H1). cbn [fst snd].
  split; [reflexivity |].
  now rewrite (DoServiceDiscovery_run
                 {| world := w1; mem := mem st; brk := brk st; services_available := arr1;
                    stdout := stdout st;
                    calls := (calls st ++ [CallServiceDiscovery r1])%list |}
                 r2 n2 arr1 w2 H2).
Qed.

End PrepareMessageMore.

(** ** [main]: exit status, reports and the successful run *)

Lemma hex_piece_not_error msg i : is_error_message (hex_piece msg i) = false.
Proof. unfold hex_piece. destruct (msg i); reflexivity. Qed.

Section MainMore.
Context {api : TPSC_Client_API}.

(** X10. The exit status of [main] does not tell a failure: in every run
    in which a call into the library failed, [main] returns 0. *)
Theorem main_exit_status w m :
  existsb failed (calls (snd (main (initial_state w m)))) = true ->
  fst (main (initial_state w m)) = Done 0.
Proof.
  intros Hfailed.
  destruct (main_cases (initial_state w m)) as (out & _ & _ & Hcases).
  cbn [initial_state calls brk app] in Hcases.
  destruct Hcases as
    [(r0 & Hr & Hc & _ & Hend) | [(r0 & Hr & Hc & _ & Hend)
    | [(r0 & Hr & Hc & _ & Hend) | [(r0 & Hr & Hc & _ & Hend)
    | [(r0 & sb & mm0 & Hr & Hc & _ & _ & _ & Hend) | (sb & mm0 & more & Hc & _)]]]]];
    try assumption.
  rewrite Hc in Hfailed. discriminate Hfailed.
Qed.

(** What [PrintMessage] adds to the output holds no error message, unless
    the heading is one. *)
Lemma PrintMessage_no_error heading msg len st :
  is_error_message heading = false ->
  exists out,
    snd (PrintMessage heading msg len st) = write out st
    /\ existsb is_error_message out = false.
Proof.
  intros Hheading. unfold PrintMessage. rewrite !bind_puts.
  destruct (PrintMessage_loop_pieces msg len (S (Z.to_nat len)) 0
              (write [newline] (write [heading] st)) ltac:(unfold INT_MAX; lia))
    as (out & Hout & Hpieces).
  assert (Hno : existsb is_error_message out = false).
  { clear Hout. induction Hpieces as [| s out [-> | (j & _ & ->)] _ IH]; cbn [existsb].
    - reflexivity.
    - exact IH.
    - now rewrite hex_piece_not_error. }
  unfold bind, puts.
  destruct (PrintMessage_loop _ msg len 0 _) as [[[] | |] st'];
    cbn [snd] in Hout; subst st'; cbn [snd]; rewrite !write_write;
    eexists; (split; [reflexivity |]);
    cbn [app existsb]; rewrite Hheading, ?existsb_app, Hno; reflexivity.
Qed.

(** X11. [main] prints an error message exactly when the last call it
    made is a service discovery or a transaction that failed: for these
    two it prints one message, and in every other run, those ended by a
    failed session open or buffer initialisation included, it prints
    none. *)
Theorem main_reports w m :
  existsb is_error_message (stdout (snd (main (initial_state w m))))
  = reported_failure (calls (snd (main (initial_state w m)))).
Proof.
  run_main ltac:(
    rewrite (bind_Done _ _ _ _ _
               (PrintMessage_spec "Input Message" (array INPUT_MSG) 20 (initial_state w m)
                  ltac:(unfold INT_MAX; lia)))).
  - match goal with
    | |- context [PrintMessage ?h ?c ?n ?s] =>
        destruct (PrintMessage_no_error h c n s eq_refl) as (out & Hout & Hno);
        destruct (PrintMessage h c n s) as [o st6]
    end.
    cbn [snd] in Hout. subst st6.
    destruct o as [[] | |]; step; rewrite existsb_app, Hno;
      cbn [initial_state calls stdout app List.last reported_failure];
      vm_compute; reflexivity.
  - cbn [initial_state calls stdout app List.last reported_failure].
    rewrite (proj2 (Z.eqb_neq _ _) Hr). vm_compute. reflexivity.
  - cbn [initial_state calls stdout app List.last reported_failure]. vm_compute. reflexivity.
  - cbn [initial_state calls stdout app List.last reported_failure]. vm_compute. reflexivity.
  - cbn [initial_state calls stdout app List.last reported_failure]. vm_compute. reflexivity.
  - cbn [initial_state calls stdout app List.last reported_failure].
    rewrite (proj2 (Z.eqb_neq _ _) Hr). vm_compute. reflexivity.
Qed.

(** X12. The run in which every call succeeds and the response lies
    inside a buffer of [main].  [main] opens the session on the service
    instance of the first element of the array that the discovery left,
    executes the transaction on the session that [TPSC_OpenSession] gave,
    with the send buffer holding the request, and, when [recv_buf.message]
    points to one of the two blocks that [main] allocated and
    [recv_buf.size] is at most their size [TRANSACTION_BUFFER_SIZE], prints
    after the dump of the request the heading "Received Message" and the
    dump of [size] bytes read through [recv_buf.message] in the memory as
    the transaction left it; then it returns 0. *)
Theorem main_success_run w m n arr w1 session w2 send_buf w3 m3 recv_buf w4 m4
    session' send_buf' recv_buf' w5 m5 :
  ServiceDiscovery selector 3 (vreplicate 3 zero_ServiceIdentifier) w
  = (TPSC_SUCCESS, n, arr, w1) ->
  OpenSession (service_instance (arr !!! 0%fin)) TPSC_LOGIN_PUBLIC NULL w1
  = (TPSC_SUCCESS, session, w2) ->
  InitializeTransaction 1%N TRANSACTION_BUFFER_SIZE w2 m
  = (TPSC_SUCCESS, send_buf, w3, m3) ->
  InitializeTransaction 2%N TRANSACTION_BUFFER_SIZE w3 m3
  = (TPSC_SUCCESS, recv_buf, w4, m4) ->
  ExecuteTransaction session (MessageBuffer.set_size send_buf 20) recv_buf w4
    (memcpy_mem 1%N (array INPUT_MSG) 20 m4)
  = (TPSC_SUCCESS, session', send_buf', recv_buf', w5, m5) ->
  MessageBuffer.message recv_buf' = 1%N \/ MessageBuffer.message recv_buf' = 2%N ->
  0 <= MessageBuffer.size recv_buf' <= TRANSACTION_BUFFER_SIZE ->
  fst (main (initial_state w m)) = Done 0
  /\ stdout (snd (main (initial_state w m)))
     = (input_dump
        ++ ["Received Message"; newline]
        ++ flat_map (turn_output (m5 (MessageBuffer.message recv_buf')))
             (map Z.of_nat (seq 0 (Z.to_nat (MessageBuffer.size recv_buf'))))
        ++ [newline])%list
  /\ world (snd (main (initial_state w m))) = w5
  /\ mem (snd (main (initial_state w m))) = m5.
Proof.
  intros Hd Ho Hi1 Hi2 Hx Hblock Hsize.
  assert (Hrange : 0 <= MessageBuffer.size recv_buf' <= INT_MAX)
    by (unfold TRANSACTION_BUFFER_SIZE, INT_MAX in *; lia).
  clear Hblock Hsize.
  run_main ltac:(
    rewrite (bind_Done _ _ _ _ _
               (PrintMessage_spec "Input Message" (array INPUT_MSG) 20 (initial_state w m)
                  ltac:(unfold INT_MAX; lia)))).
  all: cbn [initial_state services_available world brk mem] in *;
    change (N.succ 1) with 2%N in *;
    repeat match goal with
      | H : ?t = _ :> _ * _, H' : ?t = _ |- _ =>
          rewrite H in H'; inversion H'; subst; clear H'
      end;
    try congruence.
  rewrite (PrintMessage_spec "Received Message") by assumption.
  cbn [fst snd write stdout world mem app]. repeat split.
Qed.

End MainMore.

(** ** The further properties on the test platform *)

Lemma PrintMessage_counts_witness :
  0 <= 0 <= INT_MAX
  /\ exists out,
      stdout (snd (@PrintMessage scripted "Empty" (fun _ => x00) 0
                     (@initial_state scripted [] blank)))
      = (stdout (@initial_state scripted [] blank) ++ "Empty" :: out)%list
      /\ length (List.filter is_newline out) = Z.to_nat ((0 + 7) / 8 + 2)
      /\ length (List.filter (fun s => negb (is_newline s)) out) = Z.to_nat 0
      /\ (0 = 0 -> out = [newline; newline]).
Proof.
  split; [unfold INT_MAX; lia |].
  apply (@PrintMessage_counts scripted "Empty" (fun _ => x00) 0).
  unfold INT_MAX; lia.
Defined.

Lemma array_app_agree (a b : list byte) j :
  0 <= j < Z.of_nat (length a) -> array a j = array (a ++ b) j.
Proof. intros Hj. unfold array. rewrite app_nth1 by lia. reflexivity. Qed.

Lemma PrintMessage_reads_within_witness :
  (forall j, 0 <= j < 20 -> array INPUT_MSG j = array (INPUT_MSG ++ [xff]) j)
  /\ @PrintMessage scripted "Input Message" (array INPUT_MSG) 20
       (@initial_state scripted [] blank)
     = @PrintMessage scripted "Input Message" (array (INPUT_MSG ++ [xff])) 20
         (@initial_state scripted [] blank).
Proof.
  assert (H : forall j, 0 <= j < 20 -> array INPUT_MSG j = array (INPUT_MSG ++ [xff]) j)
    by (intros j Hj; apply array_app_agree; simpl; lia).
  split; [exact H |].
  exact (@PrintMessage_reads_within scripted "Input Message" _ _ 20 _ H).
Defined.


Lemma PrepareMessage_within_capacity_witness :
  exists prepared st',
    @PrepareMessage scripted (array INPUT_MSG) 20 1%N 256 (@initial_state scripted [] blank)
    = (Done prepared, st')
    /\ (prepared = TRUE \/ prepared = FALSE)
    /\ (forall p i, p <> 1%N \/ i < 0 \/ 256 <= i -> mem st' p i = blank p i).
Proof.
  destruct (@PrepareMessage_within_capacity scripted (array INPUT_MSG) 20 1%N 256
              (@initial_state scripted [] blank))
    as (prepared & st' & Hrun & Hret & Hmem & _).
  exists prepared, st'. repeat split; assumption.
Defined.

Lemma PrepareMessage_reads_within_witness :
  (forall i, 0 <= i < 20 -> array INPUT_MSG i = array (INPUT_MSG ++ [xff]) i)
  /\ forall p i,
       mem (snd (@PrepareMessage scripted (array INPUT_MSG) 20 1%N 256
                   (@initial_state scripted [] blank))) p i
       = mem (snd (@PrepareMessage scripted (array (INPUT_MSG ++ [xff])) 20 1%N 256
                     (@initial_state scripted [] blank))) p i.
Proof.
  assert (H : forall i, 0 <= i < 20 -> array INPUT_MSG i = array (INPUT_MSG ++ [xff]) i)
    by (intros i Hi; apply array_app_agree; simpl; lia).
  split; [exact H |].
  exact (proj2 (@PrepareMessage_reads_within scripted _ _ 20 1%N 256 _ H)).
Defined.

(** The response written over the request, four bytes long: the byte at
    index 10 is still the one of the request. *)
Lemma PrepareMessage_overwrites_witness :
  20 <= 256 /\ 4 <= 256
  /\ mem (snd (@PrepareMessage scripted (array EXPECT_MSG) 4 1%N 256
                 (snd (@PrepareMessage scripted (array INPUT_MSG) 20 1%N 256
                         (@initial_state scripted [] blank))))) 1%N 10
     = array INPUT_MSG 10.
Proof.
  split; [lia | split; [lia |]].
  exact (@PrepareMessage_overwrites scripted (array INPUT_MSG) 20 (array EXPECT_MSG) 4
           1%N 256 (@initial_state scripted [] blank) ltac:(lia) ltac:(lia) 10).
Defined.

(** A discovery that succeeds, then one that fails and writes nothing: the
    second [DoServiceDiscovery] hands out the service of the first. *)
Lemma DoServiceDiscovery_stale_result_witness :
  fst (@DoServiceDiscovery scripted
         (snd (@DoServiceDiscovery scripted
                 (@initial_state scripted [TPSC_SUCCESS; an_error] blank))))
  = Done (an_error, rot13_service).
Proof.
  exact (proj2 (@DoServiceDiscovery_stale_result scripted
                  (@initial_state scripted [TPSC_SUCCESS; an_error] blank)
                  TPSC_SUCCESS 1 (vinsert 0%fin rot13_service (vreplicate 3 zero_ServiceIdentifier))
                  [an_error] an_error 0 [] eq_refl eq_refl)).
Defined.

Lemma main_success_run_witness :
  fst (@main scripted (@initial_state scripted [] blank)) = Done 0
  /\ mem (snd (@main scripted (@initial_state scripted [] blank))) 2%N 4 = x47.
Proof.
  pose proof (@main_success_run scripted [] blank
                1 (vinsert 0%fin rot13_service (vreplicate 3 zero_ServiceIdentifier)) []
                tt []
                {| MessageBuffer.message := 1%N; MessageBuffer.size := 0;
                   MessageBuffer.capacity := 256 |} [] blank
                {| MessageBuffer.message := 2%N; MessageBuffer.size := 0;
                   MessageBuffer.capacity := 256 |} [] blank
                tt
                {| MessageBuffer.message := 1%N; MessageBuffer.size := 20;
                   MessageBuffer.capacity := 256 |}
                {| MessageBuffer.message := 2%N; MessageBuffer.size := 20;
                   MessageBuffer.capacity := 256 |}
                []
                (memcpy_mem 2%N
                   (rot13_reply (memcpy_mem 1%N (array INPUT_MSG) 20 blank 1%N)) 20
                   (memcpy_mem 1%N (array INPUT_MSG) 20 blank))
                eq_refl eq_refl eq_refl eq_refl eq_refl
                (or_intror eq_refl)
                ltac:(cbn; unfold TRANSACTION_BUFFER_SIZE; lia)) as (Hret & _ & _ & Hmem).
  split; [exact Hret |]. rewrite Hmem. reflexivity.
Defined.

(** A run in which the discovery fails ends with the exit status 0. *)
Lemma main_exit_status_witness :
  existsb failed (calls (snd (@main scripted (@initial_state scripted [an_error] blank))))
  = true
  /\ fst (@main scripted (@initial_state scripted [an_error] blank)) = Done 0.
Proof.
  assert (Hfailed :
    existsb failed (calls (snd (@main scripted (@initial_state scripted [an_error] blank))))
    = true) by (vm_compute; reflexivity).
  split; [exact Hfailed |].
  exact (@main_exit_status scripted [an_error] blank Hfailed).
Defined.
